(** * Verification of the webhook pipeline of whatsapp-go

    The development embeds the webhook receiver of [webhook.go]
    ([Webhook], [NewWebhook], [ServeHTTP], [HandleWebhookErr],
    [verifyChallenge], [verifySignature], [verifySignatureImpl],
    [handleWebhookPOST]) together with the payload declarations that
    [json.Unmarshal] decodes into, and the parts of the Go standard library
    these functions call: [crypto/sha256], [crypto/sha1], [crypto/hmac],
    [crypto/subtle], [encoding/hex], [strings], [net/http] and
    [encoding/json]. It also embeds the validation of outbound parameters
    ([Validate] and the [New...] constructors, [ValidateAction]), the media
    limits ([ValidateMediaSize], [ValidateMimeType]), [ExtractMediaID], and
    [FormatLinks] of [html.go].

    Go strings are byte sequences and are modelled by [string] (a list of
    8-bit characters); [[]byte] is [list byte]. *)

From Stdlib Require Import ZArith Lia List Bool DecimalString.
From Stdlib Require Import Strings.String Strings.Ascii Strings.Byte.
From stdpp Require Import base option list gmap strings finite.

Import ListNotations.
Set Warnings "-register-all".
Local Open Scope string_scope.
Local Open Scope list_scope.
Local Open Scope Z_scope.

(** ** Bytes and strings *)

Definition byte_to_Z (b : byte) : Z := Z.of_N (Byte.to_N b).

Definition byte_of_Z (z : Z) : byte :=
  match Byte.of_N (Z.to_N (z mod 256)) with
  | Some b => b
  | None => x00
  end.

(** [[]byte(s)] and [string(b)]. *)
Definition bytes_of_string (s : string) : list byte := list_byte_of_string s.
Definition string_of_bytes (b : list byte) : string := string_of_list_byte b.

(** ** 32-bit words, as [uint32] arithmetic wraps *)

Definition wrap32 (x : Z) : Z := x mod 2 ^ 32.
Definition add32 (x y : Z) : Z := wrap32 (x + y).
Definition not32 (x : Z) : Z := Z.lxor x 0xffffffff.

(** [bits.RotateLeft32 x k], for [0 <= k < 32]; a negative count of the
    source, [RotateLeft32 x (-n)], is [rotl32 x (32 - n)]. *)
Definition rotl32 (x k : Z) : Z :=
  Z.lor (wrap32 (Z.shiftl x k)) (Z.shiftr x (32 - k)).
Definition rotr32 (x n : Z) : Z := rotl32 x (32 - n).

(** Big-endian conversions between words and bytes. *)
Definition be32 (b0 b1 b2 b3 : byte) : Z :=
  Z.lor (Z.lor (Z.shiftl (byte_to_Z b0) 24) (Z.shiftl (byte_to_Z b1) 16))
        (Z.lor (Z.shiftl (byte_to_Z b2) 8) (byte_to_Z b3)).

Definition be32_bytes (x : Z) : list byte :=
  [byte_of_Z (Z.shiftr x 24); byte_of_Z (Z.shiftr x 16);
   byte_of_Z (Z.shiftr x 8); byte_of_Z x].

Definition be64_bytes (x : Z) : list byte :=
  be32_bytes (Z.shiftr x 32) ++ be32_bytes x.

Fixpoint be32_words (fuel : nat) (p : list byte) : list Z :=
  match fuel, p with
  | S n, b0 :: b1 :: b2 :: b3 :: q => be32 b0 b1 b2 b3 :: be32_words n q
  | _, _ => []
  end.

(** Splits a padded message in chunks of [chunk] bytes. *)
Fixpoint chunks (fuel : nat) (chunk : nat) (p : list byte) : list (list byte) :=
  match fuel with
  | O => []
  | S n =>
      match p with
      | [] => []
      | _ => take chunk p :: chunks n chunk (drop chunk p)
      end
  end.

(** The padding both SHA-1 and SHA-256 append: 0x80, zeros up to 56 modulo
    64, and the length in bits as a big-endian [uint64]. *)
Definition md_padding (len : nat) : list byte :=
  let r := (len mod 64)%nat in
  let zeros := (if (r <? 56)%nat then 55 - r else 119 - r)%nat in
  x80 :: repeat x00 zeros
    ++ be64_bytes ((Z.of_nat len * 8) mod 2 ^ 64).

(** ** hash.Hash: the interface [hmac.New] is given.
    [Sum] is the digest of everything written since [New]. *)
Record Hash := {
  Size : nat;
  BlockSize : nat;
  Sum : list byte -> list byte
}.

(** ** crypto/sha256 *)
Module sha256.

Definition _K : list Z :=
  [0x428A2F98; 0x71374491; 0xB5C0FBCF; 0xE9B5DBA5; 0x3956C25B; 0x59F111F1;
   0x923F82A4; 0xAB1C5ED5; 0xD807AA98; 0x12835B01; 0x243185BE; 0x550C7DC3;
   0x72BE5D74; 0x80DEB1FE; 0x9BDC06A7; 0xC19BF174; 0xE49B69C1; 0xEFBE4786;
   0x0FC19DC6; 0x240CA1CC; 0x2DE92C6F; 0x4A7484AA; 0x5CB0A9DC; 0x76F988DA;
   0x983E5152; 0xA831C66D; 0xB00327C8; 0xBF597FC7; 0xC6E00BF3; 0xD5A79147;
   0x06CA6351; 0x14292967; 0x27B70A85; 0x2E1B2138; 0x4D2C6DFC; 0x53380D13;
   0x650A7354; 0x766A0ABB; 0x81C2C92E; 0x92722C85; 0xA2BFE8A1; 0xA81A664B;
   0xC24B8B70; 0xC76C51A3; 0xD192E819; 0xD6990624; 0xF40E3585; 0x106AA070;
   0x19A4C116; 0x1E376C08; 0x2748774C; 0x34B0BCB5; 0x391C0CB3; 0x4ED8AA4A;
   0x5B9CCA4F; 0x682E6FF3; 0x748F82EE; 0x78A5636F; 0x84C87814; 0x8CC70208;
   0x90BEFFFA; 0xA4506CEB; 0xBEF9A3F7; 0xC67178F2].

(** The digest state [h[0..7]]. *)
Record digest := {
  h0 : Z; h1 : Z; h2 : Z; h3 : Z; h4 : Z; h5 : Z; h6 : Z; h7 : Z
}.

Definition init : digest :=
  {| h0 := 0x6a09e667; h1 := 0xbb67ae85; h2 := 0x3c6ef372; h3 := 0xa54ff53a;
     h4 := 0x510e527f; h5 := 0x9b05688c; h6 := 0x1f83d9ab; h7 := 0x5be0cd19 |}.

(** The message schedule, newest word first: [w[i-2]] is at index 1,
    [w[i-7]] at 6, [w[i-15]] at 14 and [w[i-16]] at 15. *)
Fixpoint schedule (n : nat) (rw : list Z) : list Z :=
  match n with
  | O => rw
  | S m =>
      let v1 := nth 1 rw 0 in
      let t1 := Z.lxor (Z.lxor (rotr32 v1 17) (rotr32 v1 19)) (Z.shiftr v1 10) in
      let v2 := nth 14 rw 0 in
      let t2 := Z.lxor (Z.lxor (rotr32 v2 7) (rotr32 v2 18)) (Z.shiftr v2 3) in
      schedule m (add32 (add32 (add32 t1 (nth 6 rw 0)) t2) (nth 15 rw 0) :: rw)
  end.

Definition round (s : digest) (kw : Z * Z) : digest :=
  let '(k, w) := kw in
  let (a, b, c, d, e, f, g, h) := s in
  let t1 :=
    add32 (add32 (add32 (add32 h
      (Z.lxor (Z.lxor (rotr32 e 6) (rotr32 e 11)) (rotr32 e 25)))
      (Z.lxor (Z.land e f) (Z.land (not32 e) g))) k) w in
  let t2 :=
    add32 (Z.lxor (Z.lxor (rotr32 a 2) (rotr32 a 13)) (rotr32 a 22))
          (Z.lxor (Z.lxor (Z.land a b) (Z.land a c)) (Z.land b c)) in
  {| h0 := add32 t1 t2; h1 := a; h2 := b; h3 := c;
     h4 := add32 d t1; h5 := e; h6 := f; h7 := g |}.

(** [blockGeneric] on one chunk of 64 bytes. *)
Definition block (dig : digest) (p : list byte) : digest :=
  let w := rev (schedule 48 (rev (be32_words 16 p))) in
  let s := fold_left round (combine _K w) dig in
  {| h0 := add32 (h0 dig) (h0 s); h1 := add32 (h1 dig) (h1 s);
     h2 := add32 (h2 dig) (h2 s); h3 := add32 (h3 dig) (h3 s);
     h4 := add32 (h4 dig) (h4 s); h5 := add32 (h5 dig) (h5 s);
     h6 := add32 (h6 dig) (h6 s); h7 := add32 (h7 dig) (h7 s) |}.

Definition checkSum (dig : digest) : list byte :=
  be32_bytes (h0 dig) ++ be32_bytes (h1 dig) ++ be32_bytes (h2 dig)
    ++ be32_bytes (h3 dig) ++ be32_bytes (h4 dig) ++ be32_bytes (h5 dig)
    ++ be32_bytes (h6 dig) ++ be32_bytes (h7 dig).

(** [sha256.Sum256]: what [Sum(nil)] returns after writing [data]. *)
Definition Sum256 (data : list byte) : list byte :=
  let p := data ++ md_padding (length data) in
  checkSum (fold_left block (chunks (length p) 64 p) init).

Definition New : Hash := {| Size := 32; BlockSize := 64; Sum := Sum256 |}.

End sha256.

(** ** crypto/sha1 *)
Module sha1.

Record digest := { h0 : Z; h1 : Z; h2 : Z; h3 : Z; h4 : Z }.

Definition init : digest :=
  {| h0 := 0x67452301; h1 := 0xefcdab89; h2 := 0x98badcfe;
     h3 := 0x10325476; h4 := 0xc3d2e1f0 |}.

Definition _K0 : Z := 0x5a827999.
Definition _K1 : Z := 0x6ed9eba1.
Definition _K2 : Z := 0x8f1bbcdc.
Definition _K3 : Z := 0xca62c1d6.

(** The expanded block, newest word first: [w[i-3]] is at index 2,
    [w[i-8]] at 7, [w[i-14]] at 13 and [w[i-16]] at 15. *)
Fixpoint schedule (n : nat) (rw : list Z) : list Z :=
  match n with
  | O => rw
  | S m =>
      let tmp := Z.lxor (Z.lxor (nth 2 rw 0) (nth 7 rw 0))
                        (Z.lxor (nth 13 rw 0) (nth 15 rw 0)) in
      schedule m (rotl32 tmp 1 :: rw)
  end.

Definition round (s : digest) (iw : nat * Z) : digest :=
  let '(i, w) := iw in
  let (a, b, c, d, e) := s in
  let '(f, k) :=
    if (i <? 20)%nat then (Z.lor (Z.land b c) (Z.land (not32 b) d), _K0)
    else if (i <? 40)%nat then (Z.lxor (Z.lxor b c) d, _K1)
    else if (i <? 60)%nat then
      (Z.lor (Z.land (Z.lor b c) d) (Z.land b c), _K2)
    else (Z.lxor (Z.lxor b c) d, _K3) in
  let t := add32 (add32 (add32 (add32 (rotl32 a 5) f) e) w) k in
  {| h0 := t; h1 := a; h2 := rotl32 b 30; h3 := c; h4 := d |}.

(** [blockGeneric] on one chunk of 64 bytes. *)
Definition block (dig : digest) (p : list byte) : digest :=
  let w := rev (schedule 64 (rev (be32_words 16 p))) in
  let s := fold_left round (combine (seq 0 80) w) dig in
  {| h0 := add32 (h0 dig) (h0 s); h1 := add32 (h1 dig) (h1 s);
     h2 := add32 (h2 dig) (h2 s); h3 := add32 (h3 dig) (h3 s);
     h4 := add32 (h4 dig) (h4 s) |}.

Definition checkSum (dig : digest) : list byte :=
  be32_bytes (h0 dig) ++ be32_bytes (h1 dig) ++ be32_bytes (h2 dig)
    ++ be32_bytes (h3 dig) ++ be32_bytes (h4 dig).

Definition Sum_ (data : list byte) : list byte :=
  let p := data ++ md_padding (length data) in
  checkSum (fold_left block (chunks (length p) 64 p) init).

Definition New : Hash := {| Size := 20; BlockSize := 64; Sum := Sum_ |}.

End sha1.

(** ** crypto/subtle and crypto/hmac *)
Module subtle.

(** [ConstantTimeCompare]: 1 when the slices have equal contents, 0
    otherwise (and at once when the lengths differ). *)
Definition ConstantTimeCompare (x y : list byte) : Z :=
  if negb (length x =? length y)%nat then 0
  else
    let v := fold_left
               (fun v xy => Z.lor v (Z.lxor (byte_to_Z (fst xy)) (byte_to_Z (snd xy))))
               (combine x y) 0 in
    if Z.eqb v 0 then 1 else 0.

End subtle.

Module hmac.

Definition xor_pad (c : Z) (key : list byte) (blocksize : nat) : list byte :=
  map (fun b => byte_of_Z (Z.lxor (byte_to_Z b) c))
      (key ++ repeat x00 (blocksize - length key)).

(** [hmac.New(h, key)], [Write(data)] and [Sum(nil)] together. *)
Definition Sum_ (h : Hash) (key data : list byte) : list byte :=
  let blocksize := BlockSize h in
  let key := if (blocksize <? length key)%nat then Sum h key else key in
  let ipad := xor_pad 0x36 key blocksize in
  let opad := xor_pad 0x5c key blocksize in
  Sum h (opad ++ Sum h (ipad ++ data)).

Definition Equal (mac1 mac2 : list byte) : bool :=
  Z.eqb (subtle.ConstantTimeCompare mac1 mac2) 1.

End hmac.

(** ** encoding/hex *)
Module hex.

Definition hextable : string := "0123456789abcdef".

Definition digit (n : Z) : byte :=
  match String.get (Z.to_nat n) hextable with
  | Some c => byte_of_ascii c
  | None => x00
  end.

Definition Encode (src : list byte) : list byte :=
  flat_map (fun v => [digit (Z.shiftr (byte_to_Z v) 4);
                      digit (Z.land (byte_to_Z v) 0x0f)]) src.

Definition EncodeToString (src : list byte) : string :=
  string_of_bytes (Encode src).

End hex.

(** ** strings *)
Module strings.

Fixpoint HasPrefix (s prefix : string) {struct prefix} : bool :=
  match prefix, s with
  | EmptyString, _ => true
  | String c p, String d t => Ascii.eqb c d && HasPrefix t p
  | String _ _, EmptyString => false
  end.

(** [CutPrefix(s, prefix)]: [s] without the leading [prefix] and whether
    it was found; [s] itself and [false] otherwise. *)
Definition CutPrefix (s prefix : string) : string * bool :=
  if HasPrefix s prefix
  then (String.substring (String.length prefix)
          (String.length s - String.length prefix) s, true)
  else (s, false).

End strings.

(** ** Go values as [encoding/json] sees them through reflection *)

(** The types of the payload declarations: named string types, [bool],
    [int], [float64], pointers, slices and structs; a struct field is its Go
    name, the key of its [json] tag, and its type. *)
Inductive gotype :=
| TString (name : string)
| TBool
| TInt
| TFloat64
| TPtr (elem : gotype)
| TSlice (elem : gotype)
| TStruct (name : string) (fields : list (string * string * gotype)).

(** A decimal number [mant * 10 ^ exp10]; the value a [float64] field is
    decoded from (its rounding to binary64 is not modelled). *)
Record decimal := { mant : Z; exp10 : Z }.

(** A slice is nil, or its elements and what its backing array still holds
    beyond its length. *)
Inductive goval :=
| VString (s : string)
| VBool (b : bool)
| VInt (n : Z)
| VFloat64 (d : decimal)
| VPtr (p : option goval)
| VSlice (s : option (list goval * list goval))
| VStruct (fields : list goval).

(** The zero value of a type, as of [var request WebhookRequest]. *)
Fixpoint zero (t : gotype) : goval :=
  match t with
  | TString _ => VString ""
  | TBool => VBool false
  | TInt => VInt 0
  | TFloat64 => VFloat64 {| mant := 0; exp10 := 0 |}
  | TPtr _ => VPtr None
  | TSlice _ => VSlice None
  | TStruct _ fields =>
      VStruct ((fix zeros (fs : list (string * string * gotype)) : list goval :=
                  match fs with
                  | [] => []
                  | (_, _, ft) :: fs' => zero ft :: zeros fs'
                  end) fields)
  end.

Definition nil_ptr : goval := VPtr None.


Definition slice_elems (v : goval) : list goval :=
  match v with
  | VSlice (Some (els, _)) => els
  | _ => []
  end.

Definition len (v : goval) : nat := length (slice_elems v).

Fixpoint field_index (name : string) (fs : list (string * string * gotype)) : option nat :=
  match fs with
  | [] => None
  | (n, _, _) :: fs' =>
      if String.eqb n name then Some O else S <$> field_index name fs'
  end.

(** [v.name] for a value [v] of the struct type [t]; through a pointer as Go
    selectors do. *)
Definition get (t : gotype) (name : string) (v : goval) : option goval :=
  match t, v with
  | TStruct _ fs, VStruct vs => i ← field_index name fs; vs !! i
  | _, _ => None
  end.

(** ** Errors *)
Inductive error :=
| errorString (s : string)
| wrapError (format : string) (err : error)
| SyntaxError
| UnmarshalTypeError (Value : string) (Type_ : gotype).

Module errors.
Definition New (text : string) : error := errorString text.
End errors.

Module fmt.
(** [fmt.Errorf(prefix + ": %w", err)]. *)
Definition Errorf_w (prefix : string) (err : error) : error :=
  wrapError (prefix +:+ ": %w") err.
End fmt.

(** ** encoding/json *)
Module json.

(** A JSON document; a number keeps its literal, an object the order of
    its members. *)
Inductive value :=
| Null
| Bool (b : bool)
| Number (lit : string)
| String_ (s : string)
| Array (elems : list value)
| Object (members : list (string * value)).

(** *** Key matching: the exact name first, then the folded one *)

Definition is_lower (z : Z) : bool := (97 <=? z) && (z <=? 122).
Definition is_upper (z : Z) : bool := (65 <=? z) && (z <=? 90).
Definition is_digit (z : Z) : bool := (48 <=? z) && (z <=? 57).

(** [foldName]: ASCII letters go to upper case and the two runes that
    fold to an ASCII letter, U+017F and U+212A, to S and K; no other rune
    folds to ASCII, so bytes of other runes are kept as they are. *)
Fixpoint foldBytes (s : list byte) : list byte :=
  match s with
  | [] => []
  | xc5 :: xbf :: t => x53 :: foldBytes t
  | xe2 :: x84 :: xaa :: t => x4b :: foldBytes t
  | c :: t =>
      (if is_lower (byte_to_Z c) then byte_of_Z (byte_to_Z c - 32) else c)
        :: foldBytes t
  end.

Definition foldName (s : string) : string :=
  string_of_bytes (foldBytes (bytes_of_string s)).

Fixpoint find_index {A} (p : A -> bool) (l : list A) : option nat :=
  match l with
  | [] => None
  | x :: l' => if p x then Some O else S <$> find_index p l'
  end.

Definition findField (fields : list (string * string * gotype)) (key : string)
  : option nat :=
  match find_index (fun f => String.eqb (snd (fst f)) key) fields with
  | Some i => Some i
  | None =>
      find_index (fun f => String.eqb (foldName (snd (fst f))) (foldName key))
                 fields
  end.

(** *** Numbers: [strconv.ParseInt(s, 10, 64)] and [strconv.ParseFloat(s, 64)] *)

Fixpoint digits (acc : Z) (s : list byte) : option Z :=
  match s with
  | [] => Some acc
  | c :: t =>
      if is_digit (byte_to_Z c) then digits (acc * 10 + (byte_to_Z c - 48)) t
      else None
  end.

Definition unsigned (s : list byte) : option Z :=
  match s with
  | [] => None
  | _ => digits 0 s
  end.

Definition signed (s : list byte) : option Z :=
  match s with
  | x2d :: t => Z.opp <$> unsigned t
  | x2b :: t => unsigned t
  | _ => unsigned s
  end.

Definition ParseInt (s : string) : option Z :=
  n ← signed (bytes_of_string s);
  if (- 2 ^ 63 <=? n) && (n <=? 2 ^ 63 - 1) then Some n else None.

(** Splits at the first byte for which [p] holds. *)
Fixpoint break (p : byte -> bool) (s : list byte) : list byte * list byte :=
  match s with
  | [] => ([], [])
  | c :: t =>
      if p c then ([], s) else let (a, b) := break p t in (c :: a, b)
  end.

Definition is_exp (c : byte) : bool :=
  match c with
  | x65 | x45 => true
  | _ => false
  end.

Definition is_dot (c : byte) : bool :=
  match c with
  | x2e => true
  | _ => false
  end.

(** The decimal a number literal denotes. *)
Definition parseDecimal (s : string) : option decimal :=
  let (neg, body) :=
    match bytes_of_string s with
    | x2d :: t => (true, t)
    | x2b :: t => (false, t)
    | t => (false, t)
    end in
  let (m, e) := break is_exp body in
  let (ip, fp) := break is_dot m in
  let fp := match fp with [] => [] | _ :: f => f end in
  match ip ++ fp with
  | [] => None
  | ds =>
      n ← digits 0 ds;
      x ← match e with
          | [] => Some 0
          | _ :: et => signed et
          end;
      Some {| mant := if neg then - n else n;
              exp10 := x - Z.of_nat (length fp) |}
  end.

(** A value overflows [float64] when it rounds to an infinity, from
    [2^1024 - 2^970] on. *)
Definition overflowFloat64 (d : decimal) : bool :=
  let bound := 2 ^ 1024 - 2 ^ 970 in
  if 0 <=? exp10 d then bound <=? Z.abs (mant d) * 10 ^ exp10 d
  else bound * 10 ^ (- exp10 d) <=? Z.abs (mant d).

Definition ParseFloat (s : string) : option decimal :=
  d ← parseDecimal s;
  if overflowFloat64 d then None else Some d.

(** *** Decoding a document into a Go value *)

(** [d.saveError]: the first error is the one reported. *)
Definition saveError (saved e : option error) : option error :=
  match saved with
  | Some _ => saved
  | None => e
  end.

Definition kind (j : value) : string :=
  match j with
  | Null => "null"
  | Bool _ => "bool"
  | Number _ => "number"
  | String_ _ => "string"
  | Array _ => "array"
  | Object _ => "object"
  end.

Definition mismatch (j : value) (t : gotype) (v : goval)
  : goval * option error :=
  (v, Some (UnmarshalTypeError (kind j) t)).

(** [d.array] on a slice: element [i] is decoded into what the backing
    array holds at [i], a zero value beyond it; an empty array gives a
    new, empty and non-nil slice. *)
Fixpoint decode_elems (dec : value -> goval -> goval * option error)
    (z : goval) (js : list value) (backing : list goval)
  : list goval * list goval * option error :=
  match js with
  | [] => ([], backing, None)
  | j :: js' =>
      let (x, e) := dec j (hd z backing) in
      let '(xs, rest, e') := decode_elems dec z js' (tl backing) in
      (x :: xs, rest, saveError e e')
  end.

Definition decode_array (dec : value -> goval -> goval * option error)
    (z : goval) (js : list value) (v : goval) : goval * option error :=
  let backing :=
    match v with
    | VSlice (Some (els, spare)) => els ++ spare
    | _ => []
    end in
  match js with
  | [] => (VSlice (Some ([], [])), None)
  | _ =>
      let '(xs, rest, e) := decode_elems dec z js backing in
      (VSlice (Some (xs, rest)), e)
  end.

(** [d.object] on a struct: the members in their order, each into the
    field its key selects; unknown keys are skipped. *)
Fixpoint decode_members (fields : list (string * string * gotype))
    (decs : list (value -> goval -> goval * option error))
    (ms : list (string * value)) (vs : list goval)
  : list goval * option error :=
  match ms with
  | [] => (vs, None)
  | (key, j) :: ms' =>
      match findField fields key with
      | Some i =>
          match (decs !! i : option (value -> goval -> goval * option error)),
                vs !! i with
          | Some dec, Some x =>
              let (x', e) := dec j x in
              let (vs', e') := decode_members fields decs ms' (<[i:=x']> vs) in
              (vs', saveError e e')
          | _, _ => decode_members fields decs ms' vs
          end
      | None => decode_members fields decs ms' vs
      end
  end.

(** [d.value]: what decoding the document [j] into the variable holding
    [v], of type [t], leaves there, and the error saved on the way. *)
Fixpoint decode (t : gotype) : value -> goval -> goval * option error :=
  match t with
  | TString _ => fun j v =>
      match j with
      | Null => (v, None)
      | String_ s => (VString s, None)
      | _ => mismatch j t v
      end
  | TBool => fun j v =>
      match j with
      | Null => (v, None)
      | Bool b => (VBool b, None)
      | _ => mismatch j t v
      end
  | TInt => fun j v =>
      match j with
      | Null => (v, None)
      | Number lit =>
          match ParseInt lit with
          | Some n => (VInt n, None)
          | None => (v, Some (UnmarshalTypeError ("number " +:+ lit) t))
          end
      | _ => mismatch j t v
      end
  | TFloat64 => fun j v =>
      match j with
      | Null => (v, None)
      | Number lit =>
          match ParseFloat lit with
          | Some d => (VFloat64 d, None)
          | None => (v, Some (UnmarshalTypeError ("number " +:+ lit) t))
          end
      | _ => mismatch j t v
      end
  | TPtr elem =>
      let dec := decode elem in
      fun j v =>
        match j with
        | Null => (VPtr None, None)
        | _ =>
            let x := match v with
                     | VPtr (Some x) => x
                     | _ => zero elem
                     end in
            let (x', e) := dec j x in (VPtr (Some x'), e)
        end
  | TSlice elem =>
      let dec := decode elem in
      fun j v =>
        match j with
        | Null => (VSlice None, None)
        | Array js => decode_array dec (zero elem) js v
        | _ => mismatch j t v
        end
  | TStruct _ fields =>
      let decs :=
        (fix decs (fs : list (string * string * gotype)) :=
           match fs with
           | [] => []
           | (_, _, ft) :: fs' => decode ft :: decs fs'
           end) fields in
      fun j v =>
        match j with
        | Null => (v, None)
        | Object ms =>
            match v with
            | VStruct vs =>
                let (vs', e) := decode_members fields decs ms vs in
                (VStruct vs', e)
            | _ => (v, None)
            end
        | _ => mismatch j t v
        end
  end.

(** *** Reading a document: the scanner of [checkValid] and [unquote] *)

Definition is_space (c : byte) : bool :=
  match c with
  | x20 | x09 | x0d | x0a => true
  | _ => false
  end.

Fixpoint skip_space (s : list byte) : list byte :=
  match s with
  | [] => []
  | c :: t => if is_space c then skip_space t else s
  end.

(** What a string literal is made of: a byte of its own, or the code
    unit of a [\uXXXX] escape. *)
Inductive unit_ :=
| Raw (b : byte)
| Esc (r : Z).

Definition hexval (c : byte) : option Z :=
  let z := byte_to_Z c in
  if is_digit z then Some (z - 48)
  else if (97 <=? z) && (z <=? 102) then Some (z - 87)
  else if (65 <=? z) && (z <=? 70) then Some (z - 55)
  else None.

Definition simple_escape (c : byte) : option byte :=
  match c with
  | x22 => Some x22
  | x5c => Some x5c
  | x2f => Some x2f
  | x62 => Some x08
  | x66 => Some x0c
  | x6e => Some x0a
  | x72 => Some x0d
  | x74 => Some x09
  | _ => None
  end.

(** The literal after its opening quote, up to the closing one. *)
Fixpoint scan_string (s : list byte) : option (list unit_ * list byte) :=
  match s with
  | [] => None
  | x22 :: t => Some ([], t)
  | x5c :: t =>
      match t with
      | x75 :: a :: b :: c :: d :: t' =>
          match hexval a, hexval b, hexval c, hexval d with
          | Some a, Some b, Some c, Some d =>
              '(us, r) ← scan_string t';
              Some (Esc (((a * 16 + b) * 16 + c) * 16 + d) :: us, r)
          | _, _, _, _ => None
          end
      | e :: t' =>
          match simple_escape e with
          | Some b => '(us, r) ← scan_string t'; Some (Raw b :: us, r)
          | None => None
          end
      | [] => None
      end
  | c :: t =>
      if byte_to_Z c <? 32 then None
      else '(us, r) ← scan_string t; Some (Raw c :: us, r)
  end.

Definition replacement : list byte := [xef; xbf; xbd].

(** [utf8.AppendRune]. *)
Definition encodeRune (r : Z) : list byte :=
  if r <? 0 then replacement
  else if r <=? 0x7f then [byte_of_Z r]
  else if r <=? 0x7ff then
    [byte_of_Z (Z.lor 0xc0 (Z.shiftr r 6));
     byte_of_Z (Z.lor 0x80 (Z.land r 0x3f))]
  else if (0xd800 <=? r) && (r <=? 0xdfff) then replacement
  else if r <=? 0xffff then
    [byte_of_Z (Z.lor 0xe0 (Z.shiftr r 12));
     byte_of_Z (Z.lor 0x80 (Z.land (Z.shiftr r 6) 0x3f));
     byte_of_Z (Z.lor 0x80 (Z.land r 0x3f))]
  else if r <=? 0x10ffff then
    [byte_of_Z (Z.lor 0xf0 (Z.shiftr r 18));
     byte_of_Z (Z.lor 0x80 (Z.land (Z.shiftr r 12) 0x3f));
     byte_of_Z (Z.lor 0x80 (Z.land (Z.shiftr r 6) 0x3f));
     byte_of_Z (Z.lor 0x80 (Z.land r 0x3f))]
  else replacement.

Definition between (lo hi : Z) (b : byte) : bool :=
  (lo <=? byte_to_Z b) && (byte_to_Z b <=? hi).

(** The second byte a leading byte of a three- or four-byte sequence
    accepts. *)
Definition second3 (b0 b1 : byte) : bool :=
  match b0 with
  | xe0 => between 0xa0 0xbf b1
  | xed => between 0x80 0x9f b1
  | _ => between 0xe1 0xef b0 && between 0x80 0xbf b1
  end.

Definition second4 (b0 b1 : byte) : bool :=
  match b0 with
  | xf0 => between 0x90 0xbf b1
  | xf4 => between 0x80 0x8f b1
  | _ => between 0xf1 0xf3 b0 && between 0x80 0xbf b1
  end.

(** [unquote]: escapes become UTF-8, a surrogate pair one rune, and what
    is not valid UTF-8 the replacement character. *)
Fixpoint unquote (us : list unit_) : list byte :=
  match us with
  | [] => []
  | Esc r1 :: t =>
      if (0xd800 <=? r1) && (r1 <? 0xe000) then
        match t with
        | Esc r2 :: t' =>
            if (r1 <? 0xdc00) && (0xdc00 <=? r2) && (r2 <? 0xe000)
            then encodeRune (Z.lor (Z.shiftl (r1 - 0xd800) 10) (r2 - 0xdc00)
                              + 0x10000) ++ unquote t'
            else replacement ++ unquote t
        | _ => replacement ++ unquote t
        end
      else encodeRune r1 ++ unquote t
  | Raw b0 :: t =>
      if byte_to_Z b0 <? 0x80 then b0 :: unquote t
      else
        match t with
        | Raw b1 :: t1 =>
            if between 0xc2 0xdf b0 && between 0x80 0xbf b1
            then b0 :: b1 :: unquote t1
            else
              match t1 with
              | Raw b2 :: t2 =>
                  if second3 b0 b1 && between 0x80 0xbf b2
                  then b0 :: b1 :: b2 :: unquote t2
                  else
                    match t2 with
                    | Raw b3 :: t3 =>
                        if second4 b0 b1 && between 0x80 0xbf b2
                           && between 0x80 0xbf b3
                        then b0 :: b1 :: b2 :: b3 :: unquote t3
                        else replacement ++ unquote t
                    | _ => replacement ++ unquote t
                    end
              | _ => replacement ++ unquote t
              end
        | _ => replacement ++ unquote t
        end
  end.

Fixpoint span_digits (s : list byte) : list byte * list byte :=
  match s with
  | [] => ([], [])
  | c :: t =>
      if is_digit (byte_to_Z c)
      then let (a, b) := span_digits t in (c :: a, b)
      else ([], s)
  end.

(** A number literal: an optional minus, 0 or digits that do not start
    with 0, an optional fraction, an optional exponent. *)
Definition scan_number (s : list byte) : option (list byte * list byte) :=
  let (sign, s1) := match s with
                    | x2d :: t => ([x2d], t)
                    | _ => ([], s)
                    end in
  '(int, s2) ← match s1 with
               | x30 :: t => Some ([x30], t)
               | _ => match span_digits s1 with
                      | ([], _) => None
                      | r => Some r
                      end
               end;
  '(frac, s3) ← match s2 with
                | x2e :: t => match span_digits t with
                              | ([], _) => None
                              | (ds, r) => Some (x2e :: ds, r)
                              end
                | _ => Some ([], s2)
                end;
  '(exp, s4) ← match s3 with
               | e :: t =>
                   if is_exp e then
                     let (sg, t') := match t with
                                     | x2b :: u => ([x2b], u)
                                     | x2d :: u => ([x2d], u)
                                     | _ => ([], t)
                                     end in
                     match span_digits t' with
                     | ([], _) => None
                     | (ds, r) => Some (e :: sg ++ ds, r)
                     end
                   else Some ([], s3)
               | [] => Some ([], s3)
               end;
  Some (sign ++ int ++ frac ++ exp, s4).

Definition maxNestingDepth : N := 10000.

(** The input after the bytes of [lit], when it starts with them. *)
Fixpoint literal (lit s : list byte) : option (list byte) :=
  match lit, s with
  | [], _ => Some s
  | a :: lit', b :: s' => if Byte.eqb a b then literal lit' s' else None
  | _ :: _, [] => None
  end.

(** One value, with the input left after it; [depth] counts the arrays
    and objects it stands in. *)
Fixpoint parse_value (fuel : nat) (depth : N) (s : list byte) {struct fuel}
  : option (value * list byte) :=
  match fuel with
  | O => None
  | S n =>
      match skip_space s with
      | [] => None
      | c :: t =>
          match c with
          | x7b =>
              if (maxNestingDepth <=? depth)%N then None
              else
                match skip_space t with
                | x7d :: r => Some (Object [], r)
                | t' =>
                    '(ms, r) ← parse_members n (N.succ depth) t';
                    Some (Object ms, r)
                end
          | x5b =>
              if (maxNestingDepth <=? depth)%N then None
              else
                match skip_space t with
                | x5d :: r => Some (Array [], r)
                | t' =>
                    '(vs, r) ← parse_elems n (N.succ depth) t';
                    Some (Array vs, r)
                end
          | x22 =>
              '(us, r) ← scan_string t;
              Some (String_ (string_of_bytes (unquote us)), r)
          | x74 => r ← literal (bytes_of_string "rue") t; Some (Bool true, r)
          | x66 => r ← literal (bytes_of_string "alse") t; Some (Bool false, r)
          | x6e => r ← literal (bytes_of_string "ull") t; Some (Null, r)
          | _ =>
              '(lit, r) ← scan_number (c :: t);
              Some (Number (string_of_bytes lit), r)
          end
      end
  end
with parse_elems (fuel : nat) (depth : N) (s : list byte) {struct fuel}
  : option (list value * list byte) :=
  match fuel with
  | O => None
  | S n =>
      '(v, r) ← parse_value n depth s;
      match skip_space r with
      | x2c :: r' => '(vs, r'') ← parse_elems n depth r'; Some (v :: vs, r'')
      | x5d :: r' => Some ([v], r')
      | _ => None
      end
  end
with parse_members (fuel : nat) (depth : N) (s : list byte) {struct fuel}
  : option (list (string * value) * list byte) :=
  match fuel with
  | O => None
  | S n =>
      match skip_space s with
      | x22 :: t =>
          '(us, r) ← scan_string t;
          match skip_space r with
          | x3a :: r1 =>
              '(v, r2) ← parse_value n depth r1;
              let m := (string_of_bytes (unquote us), v) in
              match skip_space r2 with
              | x2c :: r3 =>
                  '(ms, r4) ← parse_members n depth r3; Some (m :: ms, r4)
              | x7d :: r3 => Some ([m], r3)
              | _ => None
              end
          | _ => None
          end
      | _ => None
      end
  end.

(** The document [data] is, when it is valid JSON. *)
Definition parse (data : list byte) : option value :=
  '(v, r) ← parse_value (2 * length data + 2) 0 data;
  match skip_space r with
  | [] => Some v
  | _ => None
  end.

(** [json.Unmarshal(data, &v)] for [v] of type [t]: invalid input leaves
    [v] as it is. *)
Definition Unmarshal (t : gotype) (data : list byte) (v : goval)
  : goval * option error :=
  match parse data with
  | None => (v, Some SyntaxError)
  | Some j => decode t j v
  end.

End json.

(** ** The payload declarations

    Each struct lists its fields as (Go name, key of the [json] tag, type),
    in the order of the source; a declaration follows the ones it uses. *)

(** The named string types. *)
Definition MessagingProduct : gotype := TString "MessagingProduct".
Definition MessageType : gotype := TString "MessageType".
Definition InteractiveType : gotype := TString "InteractiveType".
Definition ContactAddressType : gotype := TString "ContactAddressType".
Definition ContactEmailType : gotype := TString "ContactEmailType".
Definition ContactPhoneType : gotype := TString "ContactPhoneType".
Definition ContactURLType : gotype := TString "ContactURLType".
Definition SystemMessageType : gotype := TString "SystemMessageType".
Definition ReferralSourceType : gotype := TString "ReferralSourceType".
Definition ReferralMediaType : gotype := TString "ReferralMediaType".
Definition MessageStatus : gotype := TString "MessageStatus".
Definition ConversationOriginType : gotype := TString "ConversationOriginType".
Definition PricingModel : gotype := TString "PricingModel".
Definition PricingCategory : gotype := TString "PricingCategory".

(** The values of [MessageType] the source declares. *)
Definition MessageTypeText : string := "text".
Definition MessageTypeImage : string := "image".
Definition MessageTypeAudio : string := "audio".
Definition MessageTypeVideo : string := "video".
Definition MessageTypeDocument : string := "document".
Definition MessageTypeSticker : string := "sticker".
Definition MessageTypeLocation : string := "location".
Definition MessageTypeContacts : string := "contacts".
Definition MessageTypeButton : string := "button".
Definition MessageTypeInteractive : string := "interactive".
Definition MessageTypeOrder : string := "order".
Definition MessageTypeSystem : string := "system".
Definition MessageTypeReaction : string := "reaction".
Definition MessageTypeUnknown : string := "unknown".
Definition MessageTypeUnsupported : string := "unsupported".

Definition WebhookMetadata : gotype :=
  TStruct "WebhookMetadata"
    [("DisplayPhoneNumber", "display_phone_number", TString "string");
     ("PhoneNumberID", "phone_number_id", TString "string")].

Definition WebhookProfile : gotype :=
  TStruct "WebhookProfile"
    [("Name", "name", TString "string")].

Definition WebhookContact : gotype :=
  TStruct "WebhookContact"
    [("Profile", "profile", WebhookProfile);
     ("WaID", "wa_id", TString "string")].

Definition WebhookReferredProduct : gotype :=
  TStruct "WebhookReferredProduct"
    [("CatalogID", "catalog_id", TString "string");
     ("ProductRetailerID", "product_retailer_id", TString "string")].

Definition WebhookMessageContext : gotype :=
  TStruct "WebhookMessageContext"
    [("From", "from", TString "string");
     ("ID", "id", TString "string");
     ("ReferredProduct", "referred_product", TPtr WebhookReferredProduct);
     ("Forwarded", "forwarded", TBool)].

Definition WebhookMessageText : gotype :=
  TStruct "WebhookMessageText"
    [("Body", "body", TString "string")].

Definition WebhookMessageMedia : gotype :=
  TStruct "WebhookMessageMedia"
    [("Caption", "caption", TString "string");
     ("Filename", "filename", TString "string");
     ("ID", "id", TString "string");
     ("MimeType", "mime_type", TString "string");
     ("SHA256", "sha256", TString "string")].

Definition WebhookMessageLocation : gotype :=
  TStruct "WebhookMessageLocation"
    [("Latitude", "latitude", TFloat64);
     ("Longitude", "longitude", TFloat64);
     ("Name", "name", TString "string");
     ("Address", "address", TString "string")].

Definition WebhookContactAddress : gotype :=
  TStruct "WebhookContactAddress"
    [("Street", "street", TString "string");
     ("City", "city", TString "string");
     ("State", "state", TString "string");
     ("Zip", "zip", TString "string");
     ("Country", "country", TString "string");
     ("CountryCode", "country_code", TString "string");
     ("Type", "type", ContactAddressType)].

Definition WebhookContactEmail : gotype :=
  TStruct "WebhookContactEmail"
    [("Email", "email", TString "string");
     ("Type", "type", ContactEmailType)].

Definition WebhookContactName : gotype :=
  TStruct "WebhookContactName"
    [("FormattedName", "formatted_name", TString "string");
     ("FirstName", "first_name", TString "string");
     ("LastName", "last_name", TString "string");
     ("MiddleName", "middle_name", TString "string");
     ("Suffix", "suffix", TString "string");
     ("Prefix", "prefix", TString "string")].

Definition WebhookContactOrg : gotype :=
  TStruct "WebhookContactOrg"
    [("Company", "company", TString "string");
     ("Department", "department", TString "string");
     ("Title", "title", TString "string")].

Definition WebhookContactPhone : gotype :=
  TStruct "WebhookContactPhone"
    [("Phone", "phone", TString "string");
     ("WaID", "wa_id", TString "string");
     ("Type", "type", ContactPhoneType)].

Definition WebhookContactURL : gotype :=
  TStruct "WebhookContactURL"
    [("URL", "url", TString "string");
     ("Type", "type", ContactURLType)].

Definition WebhookMessageContact : gotype :=
  TStruct "WebhookMessageContact"
    [("Addresses", "addresses", TSlice WebhookContactAddress);
     ("Birthday", "birthday", TString "string");
     ("Emails", "emails", TSlice WebhookContactEmail);
     ("Name", "name", TPtr WebhookContactName);
     ("Org", "org", TPtr WebhookContactOrg);
     ("Phones", "phones", TSlice WebhookContactPhone);
     ("URLs", "urls", TSlice WebhookContactURL)].

Definition WebhookMessageButton : gotype :=
  TStruct "WebhookMessageButton"
    [("Text", "text", TString "string");
     ("Payload", "payload", TString "string")].

Definition WebhookMessageInteractiveButton : gotype :=
  TStruct "WebhookMessageInteractiveButton"
    [("ID", "id", TString "string");
     ("Title", "title", TString "string")].

Definition WebhookMessageInteractiveListItem : gotype :=
  TStruct "WebhookMessageInteractiveListItem"
    [("ID", "id", TString "string");
     ("Title", "title", TString "string");
     ("Description", "description", TString "string")].

Definition WebhookMessageInteractive : gotype :=
  TStruct "WebhookMessageInteractive"
    [("Type", "type", InteractiveType);
     ("ButtonReply", "button_reply", TPtr WebhookMessageInteractiveButton);
     ("ListReply", "list_reply", TPtr WebhookMessageInteractiveListItem)].

Definition WebhookMessageOrderItem : gotype :=
  TStruct "WebhookMessageOrderItem"
    [("ProductRetailerID", "product_retailer_id", TString "string");
     ("Quantity", "quantity", TString "string");
     ("ItemPrice", "item_price", TString "string");
     ("Currency", "currency", TString "string")].

Definition WebhookMessageOrder : gotype :=
  TStruct "WebhookMessageOrder"
    [("CatalogID", "catalog_id", TString "string");
     ("ProductItems", "product_items", TSlice WebhookMessageOrderItem);
     ("Text", "text", TString "string")].

Definition WebhookMessageSystem : gotype :=
  TStruct "WebhookMessageSystem"
    [("Body", "body", TString "string");
     ("NewWaID", "new_wa_id", TString "string");
     ("Type", "type", SystemMessageType)].

Definition WebhookMessageReaction : gotype :=
  TStruct "WebhookMessageReaction"
    [("MessageID", "message_id", TString "string");
     ("Emoji", "emoji", TString "string")].

Definition WebhookMessageReferral : gotype :=
  TStruct "WebhookMessageReferral"
    [("SourceURL", "source_url", TString "string");
     ("SourceID", "source_id", TString "string");
     ("SourceType", "source_type", ReferralSourceType);
     ("Headline", "headline", TString "string");
     ("Body", "body", TString "string");
     ("MediaType", "media_type", ReferralMediaType);
     ("ImageURL", "image_url", TString "string");
     ("VideoURL", "video_url", TString "string");
     ("ThumbnailURL", "thumbnail_url", TString "string");
     ("CTWAClid", "ctwa_clid", TString "string")].

Definition WebhookErrorData : gotype :=
  TStruct "WebhookErrorData"
    [("Details", "details", TString "string")].

Definition WebhookError : gotype :=
  TStruct "WebhookError"
    [("Code", "code", TInt);
     ("Title", "title", TString "string");
     ("Message", "message", TString "string");
     ("Details", "details", TString "string");
     ("ErrorData", "error_data", TPtr WebhookErrorData);
     ("Href", "href", TString "string")].

Definition WebhookMessage : gotype :=
  TStruct "WebhookMessage"
    [("From", "from", TString "string");
     ("ID", "id", TString "string");
     ("Timestamp", "timestamp", TString "string");
     ("Type", "type", MessageType);
     ("Context", "context", TPtr WebhookMessageContext);
     ("Text", "text", TPtr WebhookMessageText);
     ("Image", "image", TPtr WebhookMessageMedia);
     ("Audio", "audio", TPtr WebhookMessageMedia);
     ("Video", "video", TPtr WebhookMessageMedia);
     ("Document", "document", TPtr WebhookMessageMedia);
     ("Sticker", "sticker", TPtr WebhookMessageMedia);
     ("Location", "location", TPtr WebhookMessageLocation);
     ("Contacts", "contacts", TSlice WebhookMessageContact);
     ("Button", "button", TPtr WebhookMessageButton);
     ("Interactive", "interactive", TPtr WebhookMessageInteractive);
     ("Order", "order", TPtr WebhookMessageOrder);
     ("System", "system", TPtr WebhookMessageSystem);
     ("Reaction", "reaction", TPtr WebhookMessageReaction);
     ("Referral", "referral", TPtr WebhookMessageReferral);
     ("Errors", "errors", TSlice WebhookError)].

Definition WebhookConversationOrigin : gotype :=
  TStruct "WebhookConversationOrigin"
    [("Type", "type", ConversationOriginType)].

Definition WebhookStatusConversation : gotype :=
  TStruct "WebhookStatusConversation"
    [("ID", "id", TString "string");
     ("ExpirationTimestamp", "expiration_timestamp", TString "string");
     ("Origin", "origin", TPtr WebhookConversationOrigin)].

Definition WebhookStatusPricing : gotype :=
  TStruct "WebhookStatusPricing"
    [("Billable", "billable", TBool);
     ("PricingModel", "pricing_model", PricingModel);
     ("Category", "category", PricingCategory)].

Definition WebhookStatus : gotype :=
  TStruct "WebhookStatus"
    [("ID", "id", TString "string");
     ("Status", "status", MessageStatus);
     ("Timestamp", "timestamp", TString "string");
     ("RecipientID", "recipient_id", TString "string");
     ("Conversation", "conversation", TPtr WebhookStatusConversation);
     ("Pricing", "pricing", TPtr WebhookStatusPricing);
     ("Errors", "errors", TSlice WebhookError)].

Definition WebhookValue : gotype :=
  TStruct "WebhookValue"
    [("MessagingProduct", "messaging_product", MessagingProduct);
     ("Metadata", "metadata", WebhookMetadata);
     ("Contacts", "contacts", TSlice WebhookContact);
     ("Messages", "messages", TSlice WebhookMessage);
     ("Statuses", "statuses", TSlice WebhookStatus);
     ("Errors", "errors", TSlice WebhookError)].

Definition WebhookChange : gotype :=
  TStruct "WebhookChange"
    [("Value", "value", WebhookValue);
     ("Field", "field", TString "string")].

Definition WebhookEntry : gotype :=
  TStruct "WebhookEntry"
    [("ID", "id", TString "string");
     ("Changes", "changes", TSlice WebhookChange)].

Definition WebhookRequest : gotype :=
  TStruct "WebhookRequest"
    [("Object", "object", TString "string");
     ("Entry", "entry", TSlice WebhookEntry)].

(** ** net/textproto, net/url, io and net/http *)
Module textproto.

(** The bytes of an HTTP token. *)
Definition validHeaderFieldByte (c : byte) : bool :=
  let z := byte_to_Z c in
  json.is_digit z || json.is_lower z || json.is_upper z
  || match c with
     | x21 | x23 | x24 | x25 | x26 | x27 | x2a | x2b | x2d | x2e
     | x5e | x5f | x60 | x7c | x7e => true
     | _ => false
     end.

(** First letter and every letter after a dash in upper case, the others
    in lower case. *)
Fixpoint canonical (upper : bool) (a : list byte) : list byte :=
  match a with
  | [] => []
  | c :: t =>
      let z := byte_to_Z c in
      let c' := if upper && json.is_lower z then byte_of_Z (z - 32)
                else if negb upper && json.is_upper z then byte_of_Z (z + 32)
                else c in
      c' :: canonical (match c' with x2d => true | _ => false end) t
  end.

(** [CanonicalMIMEHeaderKey]: a key with a byte that no token has is
    returned as it is. *)
Definition CanonicalMIMEHeaderKey (s : string) : string :=
  let a := bytes_of_string s in
  if forallb validHeaderFieldByte a then string_of_bytes (canonical true a)
  else s.

End textproto.

Module url.

(** [Values.Get]: the first value of the key, or the empty string. *)
Definition Get (v : gmap string (list string)) (key : string) : string :=
  match v !! key with
  | Some (x :: _) => x
  | _ => ""
  end.

End url.

Module io.

(** A request body: what reading it to the end gives, and the error the
    read ends with, if any. *)
Record ReadCloser := { data : list byte; err : option error }.

Definition ReadAll (r : ReadCloser) : list byte * option error :=
  (data r, err r).

End io.

Module http.

Definition MethodGet : string := "GET".
Definition MethodPost : string := "POST".

Definition StatusOK : Z := 200.
Definition StatusBadRequest : Z := 400.
Definition StatusForbidden : Z := 403.
Definition StatusMethodNotAllowed : Z := 405.

(** [Header.Get]: the first value of the canonical form of the key, or
    the empty string. *)
Definition Get (h : gmap string (list string)) (key : string) : string :=
  match h !! textproto.CanonicalMIMEHeaderKey key with
  | Some (x :: _) => x
  | _ => ""
  end.

Definition Set_ (h : gmap string (list string)) (key value : string)
  : gmap string (list string) :=
  <[textproto.CanonicalMIMEHeaderKey key := [value]]> h.

(** What a [ResponseWriter] has been given: the status code once the
    header is written, the header map and the body. *)
Record ResponseWriter := {
  status : option Z;
  header : gmap string (list string);
  written : list byte
}.

(** A writer nothing was written to. *)
Definition NewRecorder : ResponseWriter :=
  {| status := None; header := ∅; written := [] |}.

(** [w.WriteHeader(code)]: only the first call counts. *)
Definition WriteHeader (code : Z) (w : ResponseWriter) : ResponseWriter :=
  match status w with
  | Some _ => w
  | None => {| status := Some code; header := header w; written := written w |}
  end.

(** [w.Write(b)]: writes the header with [StatusOK] when it is not
    written yet. *)
Definition Write (b : list byte) (w : ResponseWriter) : ResponseWriter :=
  let w := WriteHeader StatusOK w in
  {| status := status w; header := header w; written := written w ++ b |}.

(** [http.Error(w, error, code)]. *)
Definition Error (error : string) (code : Z) (w : ResponseWriter)
  : ResponseWriter :=
  let h := Set_ (Set_ (header w) "Content-Type" "text/plain; charset=utf-8")
                "X-Content-Type-Options" "nosniff" in
  let w := {| status := status w; header := h; written := written w |} in
  Write (bytes_of_string (error +:+ String "010"%char ""))
        (WriteHeader code w).

(** The parts of a [*http.Request] the webhook reads: [r.Method],
    [r.URL.Query()], [r.Header], [r.Body] and [r.Context()]. *)
Record Request := {
  Method : string;
  Query : gmap string (list string);
  Header : gmap string (list string);
  Body : io.ReadCloser;
  Context : nat
}.

End http.

(** ** The webhook *)

(** A [*Webhook] is an address in the store of allocated webhooks. *)
Definition loc := positive.

(** The host's handlers work on the response writer they are given. *)
Definition WebhookHandlerFunc : Type :=
  nat -> http.ResponseWriter -> goval -> http.ResponseWriter.

Definition WebhookErrHandlerFunc : Type :=
  nat -> http.ResponseWriter -> option goval -> error
  -> bool * http.ResponseWriter.

(** A [WebhookHandler] is nil or an implementation of the host. *)
Definition WebhookHandler : Type := option WebhookHandlerFunc.

(** A [WebhookErrHandler] is nil, a [*Webhook] (which has the method
    [HandleWebhookErr]) or an implementation of the host. *)
Inductive WebhookErrHandler :=
| ErrHandler_nil
| ErrHandler_Webhook (wh : loc)
| ErrHandler_Func (f : WebhookErrHandlerFunc).

Record Webhook := {
  WebhookSecret : string;
  AppSecret : string;
  Handler : WebhookHandler;
  ErrHandler : WebhookErrHandler
}.

(** [NewWebhook]: allocates the webhook and makes it its own error
    handler. *)
Definition NewWebhook (webhookSecret appSecret : string)
    (handler : WebhookHandler) (σ : gmap loc Webhook)
  : loc * gmap loc Webhook :=
  let wh := fresh (dom σ) in
  let σ := <[wh := {| WebhookSecret := webhookSecret;
                      AppSecret := appSecret;
                      Handler := handler;
                      ErrHandler := ErrHandler_nil |}]> σ in
  let σ := alter (fun w => {| WebhookSecret := WebhookSecret w;
                              AppSecret := AppSecret w;
                              Handler := Handler w;
                              ErrHandler := ErrHandler_Webhook wh |}) wh σ in
  (wh, σ).

(** *** Running a request

    A run has the response writer and the calls made so far as its state.
    It returns, panics, or is still running when its fuel is used up. *)
Inductive call :=
| CallReadAll
| CallClose
| CallVerifySignature (body : list byte)
| CallUnmarshal (body : list byte)
| CallHandleWebhookErr (r : option goval) (err : error)
| CallHandleWebhook (r : goval)
| CallError (error : string) (code : Z)
| CallWriteHeader (code : Z)
| CallWrite (b : list byte).

Record state := { resp : http.ResponseWriter; calls : list call }.

Inductive res (A : Type) :=
| Done (a : A) (s : state)
| Panicked (s : state)
| OutOfFuel (s : state).
Arguments Done {A} a s.
Arguments Panicked {A} s.
Arguments OutOfFuel {A} s.

Definition M (A : Type) : Type := state -> res A.

#[global] Instance M_ret : MRet M := fun A a s => Done a s.
#[global] Instance M_bind : MBind M := fun A B f m s =>
  match m s with
  | Done a s' => f a s'
  | Panicked s' => Panicked s'
  | OutOfFuel s' => OutOfFuel s'
  end.

Definition final {A} (r : res A) : state :=
  match r with
  | Done _ s | Panicked s | OutOfFuel s => s
  end.

(** Records a call. *)
Definition log (c : call) : M unit := fun s =>
  Done tt {| resp := resp s; calls := calls s ++ [c] |}.

(** Runs a method of the response writer. *)
Definition on_writer (f : http.ResponseWriter -> http.ResponseWriter)
  : M unit := fun s =>
  Done tt {| resp := f (resp s); calls := calls s |}.

Definition writer : M http.ResponseWriter := fun s => Done (resp s) s.

Definition panic {A} : M A := fun s => Panicked s.

(** [defer d]: [d] runs when the body returns and when it panics. *)
Definition defer {A} (d : M unit) (body : M A) : M A := fun s =>
  match body s with
  | Done a s' => match d s' with
                 | Done _ s'' => Done a s''
                 | Panicked s'' => Panicked s''
                 | OutOfFuel s'' => OutOfFuel s''
                 end
  | Panicked s' => Panicked (final (d s'))
  | OutOfFuel s' => OutOfFuel s'
  end.

(** [*wh]: a nil pointer panics. *)
Definition deref (σ : gmap loc Webhook) (wh : loc) : M Webhook := fun s =>
  match σ !! wh with
  | Some w => Done w s
  | None => Panicked s
  end.

(** [Webhook.HandleWebhookErr]. *)
Fixpoint HandleWebhookErr (fuel : nat) (σ : gmap loc Webhook) (wh : loc)
    (ctx : nat) (r : option goval) (err : error) : M bool :=
  match fuel with
  | O => fun s => OutOfFuel s
  | S fuel =>
      w ← deref σ wh;
      match ErrHandler w with
      | ErrHandler_Webhook eh => HandleWebhookErr fuel σ eh ctx r err
      | ErrHandler_Func f => fun s =>
          let (handled, rw) := f ctx (resp s) r err in
          Done handled {| resp := rw; calls := calls s |}
      | ErrHandler_nil => mret false
      end
  end.

(** [Webhook.verifyChallenge]. *)
Definition verifyChallenge (wh : Webhook) (r : http.Request) : M unit :=
  let mode := url.Get (http.Query r) "hub.mode" in
  let challenge := url.Get (http.Query r) "hub.challenge" in
  let verifyToken := url.Get (http.Query r) "hub.verify_token" in
  if String.eqb mode "subscribe" && String.eqb verifyToken (WebhookSecret wh)
  then
    log (CallWriteHeader http.StatusOK);;
    on_writer (http.WriteHeader http.StatusOK);;
    log (CallWrite (bytes_of_string challenge));;
    on_writer (http.Write (bytes_of_string challenge))
  else
    log (CallWriteHeader http.StatusForbidden);;
    on_writer (http.WriteHeader http.StatusForbidden).

(** [Webhook.verifySignatureImpl]. *)
Definition verifySignatureImpl (wh : Webhook) (signature prefix : string)
    (body : list byte) (hashFunc : Hash) : bool :=
  let (expectedSig, foundPrefix) := strings.CutPrefix signature prefix in
  if negb foundPrefix then false
  else
    let actualSig :=
      hex.EncodeToString
        (hmac.Sum_ hashFunc (bytes_of_string (AppSecret wh)) body) in
    hmac.Equal (bytes_of_string expectedSig) (bytes_of_string actualSig).

(** [Webhook.verifySignature]. *)
Definition verifySignature (wh : Webhook) (r : http.Request)
    (body : list byte) : bool :=
  let signature := http.Get (http.Header r) "X-Hub-Signature-256" in
  if negb (String.eqb signature "")
  then verifySignatureImpl wh signature "sha256=" body sha256.New
  else
    let signature := http.Get (http.Header r) "X-Hub-Signature" in
    if negb (String.eqb signature "")
    then verifySignatureImpl wh signature "sha1=" body sha1.New
    else false.

(** [Webhook.handleWebhookPOST]. *)
Definition handleWebhookPOST (fuel : nat) (σ : gmap loc Webhook) (wh : loc)
    (r : http.Request) : M unit :=
  defer (log CallClose)
    (log CallReadAll;;
     let (body, err) := io.ReadAll (http.Body r) in
     match err with
     | Some err =>
         let err := fmt.Errorf_w "reading body" err in
         log (CallHandleWebhookErr None err);;
         handled ← HandleWebhookErr fuel σ wh (http.Context r) None err;
         if negb handled
         then
           log (CallError "Failed to read request body" http.StatusBadRequest);;
           on_writer (http.Error "Failed to read request body"
                                 http.StatusBadRequest)
         else mret tt
     | None =>
         w ← deref σ wh;
         log (CallVerifySignature body);;
         if negb (verifySignature w r body)
         then
           let err := errors.New "invalid signature" in
           log (CallHandleWebhookErr None err);;
           handled ← HandleWebhookErr fuel σ wh (http.Context r) None err;
           if negb handled
           then
             log (CallError "Invalid signature" http.StatusForbidden);;
             on_writer (http.Error "Invalid signature" http.StatusForbidden)
           else mret tt
         else
           let request := zero WebhookRequest in
           log (CallUnmarshal body);;
           let (request, err) := json.Unmarshal WebhookRequest body request in
           match err with
           | Some err =>
               let err := fmt.Errorf_w "unmarshalling request body" err in
               log (CallHandleWebhookErr (Some request) err);;
               handled ← HandleWebhookErr fuel σ wh (http.Context r)
                                          (Some request) err;
               if negb handled
               then
                 log (CallError "Failed to parse request body"
                                http.StatusBadRequest);;
                 on_writer (http.Error "Failed to parse request body"
                                       http.StatusBadRequest)
               else mret tt
           | None =>
               match Handler w with
               | Some h =>
                   log (CallHandleWebhook request);;
                   on_writer (fun rw => h (http.Context r) rw request)
               | None => panic
               end
           end
     end).

(** [Webhook.ServeHTTP]. *)
Definition ServeHTTP (fuel : nat) (σ : gmap loc Webhook) (wh : loc)
    (r : http.Request) : M unit :=
  if String.eqb (http.Method r) http.MethodGet
  then w ← deref σ wh; verifyChallenge w r
  else if String.eqb (http.Method r) http.MethodPost
  then handleWebhookPOST fuel σ wh r
  else
    log (CallWriteHeader http.StatusMethodNotAllowed);;
    on_writer (http.WriteHeader http.StatusMethodNotAllowed).

(** A request as the server hands it over: nothing written, no call made. *)
Definition start : state := {| resp := http.NewRecorder; calls := [] |}.

(** * Bytes *)
#[global] Instance byte_eq_dec : EqDecision byte := Byte.byte_eq_dec.

(** What the hook a webhook is configured with answers, when it is nil or
    a function of the host. *)
Definition hook_of (w : Webhook) : option WebhookErrHandlerFunc :=
  match ErrHandler w with
  | ErrHandler_nil => Some (fun _ rw _ _ => (false, rw))
  | ErrHandler_Func f => Some f
  | ErrHandler_Webhook _ => None
  end.

(** The signature the platform sends for a body. *)
Definition signature_of (prefix : string) (h : Hash) (secret : string)
    (body : list byte) : string :=
  prefix +:+ hex.EncodeToString (hmac.Sum_ h (bytes_of_string secret) body).

(** The 256 bytes. *)
Definition all_bytes : list byte := byte_of_Z <$> seqZ 0 256.

#[global] Program Instance byte_finite : Finite byte := {| enum := all_bytes |}.
Next Obligation.
  apply (bool_decide_unpack (NoDup all_bytes)). vm_compute. exact I.
Qed.
Next Obligation.
  intros b. apply (bool_decide_unpack (b ∈ all_bytes)).
  destruct b; vm_compute; exact I.
Qed.

Definition request_with (h : gmap string (list string)) : http.Request :=
  {| http.Method := "POST"; http.Query := ∅; http.Header := h;
     http.Body := {| io.data := []; io.err := None |}; http.Context := 0 |}.

(** The calls [handleWebhookPOST] makes once the hook is called: the default
    response when the hook answers [false], and the deferred [Close]. *)
Definition after_hook (text : string) (code : Z) (tail : list call) : Prop :=
  tail = [] \/ tail = [CallClose] \/ tail = [CallError text code; CallClose].

(** The failures of a POST, in the words of the specification: the body
    cannot be read, the signature does not verify, the body does not
    decode. *)
Inductive failure :=
| ReadFailure (err : error)
| SignatureFailure
| DecodeFailure (request : goval) (err : error).

(** The response each failure has by default. *)
Definition default_response (f : failure) : string * Z :=
  match f with
  | ReadFailure _ => ("Failed to read request body", 400)
  | SignatureFailure => ("Invalid signature", 403)
  | DecodeFailure _ _ => ("Failed to parse request body", 400)
  end.

(** The envelope pointer and the error the hook is given for a failure. *)
Definition reported (f : failure) : option goval * error :=
  match f with
  | ReadFailure err => (None, fmt.Errorf_w "reading body" err)
  | SignatureFailure => (None, errors.New "invalid signature")
  | DecodeFailure request err =>
      (Some request, fmt.Errorf_w "unmarshalling request body" err)
  end.

(** The first failure of a request, or the envelope it decodes to. *)
Definition outcome (w : Webhook) (r : http.Request) : failure + goval :=
  match io.err (http.Body r) with
  | Some err => inl (ReadFailure err)
  | None =>
      if verifySignature w r (io.data (http.Body r)) then
        match json.Unmarshal WebhookRequest (io.data (http.Body r))
                (zero WebhookRequest) with
        | (request, Some err) => inl (DecodeFailure request err)
        | (request, None) => inr request
        end
      else inl SignatureFailure
  end.

(** The calls of a run to the handler, to the hook, and the writes of the
    webhook itself. *)
Definition handler_calls (tr : list call) : list goval :=
  omap (fun c => match c with CallHandleWebhook r => Some r | _ => None end) tr.

Definition hook_calls (tr : list call) : list (option goval * error) :=
  omap (fun c => match c with
                 | CallHandleWebhookErr r err => Some (r, err)
                 | _ => None
                 end) tr.

Definition is_write (c : call) : bool :=
  match c with
  | CallError _ _ | CallWriteHeader _ | CallWrite _ => true
  | _ => false
  end.

Definition writes (tr : list call) : list call := List.filter is_write tr.

(** A document has the shape of a type: a string for a string type, a
    number that parses for a number type, an array of documents of the
    shape of the element type for a slice, an object whose members have the
    shape of the fields their keys select for a struct; [null] has the shape
    of any type, and members that select no field are not looked at. *)
Fixpoint conforms (t : gotype) : json.value -> bool :=
  match t with
  | TString _ => fun j =>
      match j with
      | json.Null | json.String_ _ => true
      | _ => false
      end
  | TBool => fun j =>
      match j with
      | json.Null | json.Bool _ => true
      | _ => false
      end
  | TInt => fun j =>
      match j with
      | json.Null => true
      | json.Number lit => bool_decide (is_Some (json.ParseInt lit))
      | _ => false
      end
  | TFloat64 => fun j =>
      match j with
      | json.Null => true
      | json.Number lit => bool_decide (is_Some (json.ParseFloat lit))
      | _ => false
      end
  | TPtr elem => conforms elem
  | TSlice elem =>
      let c := conforms elem in
      fun j =>
        match j with
        | json.Null => true
        | json.Array js => forallb c js
        | _ => false
        end
  | TStruct _ fields =>
      let cs :=
        (fix cs (fs : list (string * string * gotype)) :=
           match fs with
           | [] => []
           | (_, _, ft) :: fs' => conforms ft :: cs fs'
           end) fields in
      fun j =>
        match j with
        | json.Null => true
        | json.Object ms =>
            forallb (fun m : string * json.value =>
                       match json.findField fields (fst m) with
                       | Some i =>
                           match (cs !! i : option (json.value -> bool)) with
                           | Some c => c (snd m)
                           | None => true
                           end
                       | None => true
                       end) ms
        | _ => false
        end
  end.

(** The key selects the field [name] of the struct type [t]. *)
Definition selects (t : gotype) (name key : string) : bool :=
  match t with
  | TStruct _ fields =>
      match json.findField fields key, field_index name fields with
      | Some i, Some k => Nat.eqb i k
      | _, _ => false
      end
  | _ => false
  end.

(** The object has a member for the field [name] of [t]. *)
Definition has_key (t : gotype) (name : string)
    (ms : list (string * json.value)) : bool :=
  existsb (fun m => selects t name (fst m)) ms.


(** A value is one a variable of the type can hold: a string for a string
    type, a pointer that is nil or points to a value of the element type, a
    slice whose elements and backing array hold values of the element type,
    a struct with a value of its type for each field. *)
Fixpoint has_type (t : gotype) : goval -> Prop :=
  match t with
  | TString _ => fun v => match v with VString _ => True | _ => False end
  | TBool => fun v => match v with VBool _ => True | _ => False end
  | TInt => fun v => match v with VInt _ => True | _ => False end
  | TFloat64 => fun v => match v with VFloat64 _ => True | _ => False end
  | TPtr elem =>
      let h := has_type elem in
      fun v =>
        match v with
        | VPtr None => True
        | VPtr (Some x) => h x
        | _ => False
        end
  | TSlice elem =>
      let h := has_type elem in
      fun v =>
        match v with
        | VSlice None => True
        | VSlice (Some (els, spare)) => Forall h els /\ Forall h spare
        | _ => False
        end
  | TStruct _ fields =>
      let hs :=
        (fix hs (fs : list (string * string * gotype)) :=
           match fs with
           | [] => []
           | (_, _, ft) :: fs' => has_type ft :: hs fs'
           end) fields in
      fun v =>
        match v with
        | VStruct vs => Forall2 (fun (h : goval -> Prop) x => h x) hs vs
        | _ => False
        end
  end.

(** The fields of a struct type. *)
Definition struct_fields (t : gotype) : list (string * string * gotype) :=
  match t with
  | TStruct _ fields => fields
  | _ => []
  end.

(** What a document sends for the field [name] of the struct type [t]: the
    value of the last member whose key selects the field. *)
Definition sent (t : gotype) (name : string) (j : json.value)
    : option json.value :=
  match j with
  | json.Object ms =>
      last (snd <$> List.filter (fun m => selects t name (fst m)) ms)
  | _ => None
  end.

(** The elements of an array. *)
Definition sent_elems (j : json.value) : list json.value :=
  match j with
  | json.Array js => js
  | _ => []
  end.

(** The message a document sends at place [c] of the messages of the value
    of change [b] of entry [a]. *)
Definition sent_message (j : json.value) (a b c : nat) : option json.value :=
  entries ← sent WebhookRequest "Entry" j;
  entry ← sent_elems entries !! a;
  changes ← sent WebhookEntry "Changes" entry;
  change ← sent_elems changes !! b;
  value ← sent WebhookChange "Value" change;
  messages ← sent WebhookValue "Messages" value;
  sent_elems messages !! c.

(** [request.Entry[a].Changes[b].Value.Messages[c]]. *)
Definition message_at (request : goval) (a b c : nat) : option goval :=
  entries ← get WebhookRequest "Entry" request;
  entry ← slice_elems entries !! a;
  changes ← get WebhookEntry "Changes" entry;
  change ← slice_elems changes !! b;
  value ← get WebhookChange "Value" change;
  messages ← get WebhookValue "Messages" value;
  slice_elems messages !! c.

(** [v.name] for every [v] of a list, and the elements of the slices found. *)
Definition fields_of (t : gotype) (name : string) (vs : list goval) : list goval :=
  omap (get t name) vs.

(** The messages of an envelope: those of every change of every entry. *)
Definition all_messages (request : goval) : list goval :=
  let entries := fields_of WebhookRequest "Entry" [request] ≫= slice_elems in
  let changes := fields_of WebhookEntry "Changes" entries ≫= slice_elems in
  let values := fields_of WebhookChange "Value" changes in
  fields_of WebhookValue "Messages" values ≫= slice_elems.

(** A text with every apostrophe turned into a double quote: JSON written
    with apostrophes for its quotes. *)
Fixpoint quoted (s : string) : string :=
  match s with
  | EmptyString => EmptyString
  | String c t =>
      String (if Ascii.eqb c "039"%char then "034"%char else c) (quoted t)
  end.

(** The envelope of one message of a type the source does not list. *)
Definition future_type_body : list byte :=
  bytes_of_string
    (quoted
       ("{'object':'whatsapp_business_account','entry':[{'id':'1',"
        +:+ "'changes':[{'field':'messages','value':{"
        +:+ "'messaging_product':'whatsapp','metadata':{"
        +:+ "'display_phone_number':'1','phone_number_id':'2'},"
        +:+ "'messages':[{'from':'123','id':'m1',"
        +:+ "'timestamp':'1000','type':'some_future_type'}]}}]}]}")).

(** The envelope of one message of a type the source does not list, sent
    with the type first and a payload of its own after it. *)
Definition poll_type_body : list byte :=
  bytes_of_string
    (quoted
       ("{'object':'whatsapp_business_account','entry':[{'id':'1',"
        +:+ "'changes':[{'field':'messages','value':{"
        +:+ "'messaging_product':'whatsapp','metadata':{"
        +:+ "'display_phone_number':'1','phone_number_id':'2'},"
        +:+ "'messages':[{'type':'poll','poll':{},'from':'123',"
        +:+ "'id':'m1','timestamp':'1000'}]}}]}]}")).

(** A handler that answers 200 with "ok", and a hook that answers 500 and
    takes the response over when the error is a wrapped one. *)
Definition example_handler : WebhookHandlerFunc :=
  fun _ rw _ => http.Write (bytes_of_string "ok") rw.

Definition example_hook : WebhookErrHandlerFunc :=
  fun _ rw _ err =>
    match err with
    | wrapError _ _ => (true, http.WriteHeader 500 rw)
    | _ => (false, rw)
    end.

(** A webhook with the secrets "token" and "abc", as a host that sets its
    own hook has it, stored at address 1. *)
Definition example_webhook : Webhook :=
  {| WebhookSecret := "token"; AppSecret := "abc";
     Handler := Some example_handler;
     ErrHandler := ErrHandler_Func example_hook |}.

Definition example_store : gmap loc Webhook := {[ 1%positive := example_webhook ]}.

(** A POST with the given headers and body. *)
Definition post (h : gmap string (list string)) (body : list byte) : http.Request :=
  {| http.Method := "POST"; http.Query := ∅; http.Header := h;
     http.Body := {| io.data := body; io.err := None |}; http.Context := 0 |}.

(** The subscription request of the platform. *)
Definition subscribe (token challenge : string) : http.Request :=
  {| http.Method := "GET";
     http.Query := {[ "hub.mode" := ["subscribe"];
                      "hub.verify_token" := [token];
                      "hub.challenge" := [challenge] ]};
     http.Header := ∅;
     http.Body := {| io.data := []; io.err := None |}; http.Context := 0 |}.

(** HMAC-SHA256 and HMAC-SHA1 of "hi" under the key "abc". *)
Definition hi_sha256 : string :=
  "sha256=330d91db907ac17a57142096e5458df0db9b4aec54916ed18160aa7859536daa".
Definition hi_sha1 : string := "sha1=755f776df0652923d90a05a1e1c7cbcf98ce05d6".

(** ** The parameters of outbound messages and their validation *)

(** [fmt.Errorf] with a format that wraps no error: the message, with the
    verbs [%d] and [%s] filled in by [itoa] and by the string itself. *)
Definition Errorf (msg : string) : error := errorString msg.

(** [%d] of an integer. *)
Definition itoa (n : Z) : string := NilZero.string_of_int (Z.to_int n).

Definition MessagingProductWhatsApp : string := "whatsapp".

Module FlowParameters.
(** [FlowActionPayload]: a screen and a map of data. *)
Record Payload := { Screen : string; Data : gmap string json.value }.

Record t := {
  FlowMessageVersion : string;
  FlowMode : string;
  FlowToken : string;
  FlowID : string;
  FlowCTA : string;
  FlowAction : string;
  FlowActionPayload : option Payload
}.

Definition ActionType (fp : option t) : string := "flow".

(** [(fp *FlowParameters) Validate()]; [None] is the nil error. *)
Definition Validate (fp : option t) : option error :=
  match fp with
  | None => Some (Errorf "flow parameters cannot be nil")
  | Some fp =>
      if String.eqb (FlowMessageVersion fp) ""
      then Some (Errorf "flow_message_version is required")
      else if String.eqb (FlowToken fp) ""
      then Some (Errorf "flow_token is required")
      else if String.eqb (FlowID fp) ""
      then Some (Errorf "flow_id is required")
      else if String.eqb (FlowCTA fp) ""
      then Some (Errorf "flow_cta is required")
      else if String.eqb (FlowAction fp) ""
      then Some (Errorf "flow_action is required")
      else None
  end.
End FlowParameters.

(** [NewFlowParameters]: the parameters, or nil and the error. *)
Definition NewFlowParameters
    (flowMessageVersion flowToken flowID flowCTA flowAction : string)
  : option FlowParameters.t * option error :=
  let params := {| FlowParameters.FlowMessageVersion := flowMessageVersion;
                   FlowParameters.FlowMode := "";
                   FlowParameters.FlowToken := flowToken;
                   FlowParameters.FlowID := flowID;
                   FlowParameters.FlowCTA := flowCTA;
                   FlowParameters.FlowAction := flowAction;
                   FlowParameters.FlowActionPayload := None |} in
  match FlowParameters.Validate (Some params) with
  | Some err => (None, Some err)
  | None => (Some params, None)
  end.

Module CTAURLParameters.
Record t := { DisplayText : string; URL : string }.

Definition ActionType (cp : option t) : string := "cta_url".

Definition Validate (cp : option t) : option error :=
  match cp with
  | None => Some (Errorf "CTA URL parameters cannot be nil")
  | Some cp =>
      if String.eqb (DisplayText cp) ""
      then Some (Errorf "display_text is required")
      else if String.eqb (URL cp) ""
      then Some (Errorf "url is required")
      else None
  end.
End CTAURLParameters.

(** [NewCTAURLParameters]. *)
Definition NewCTAURLParameters (displayText url : string)
  : option CTAURLParameters.t * option error :=
  let params := {| CTAURLParameters.DisplayText := displayText;
                   CTAURLParameters.URL := url |} in
  match CTAURLParameters.Validate (Some params) with
  | Some err => (None, Some err)
  | None => (Some params, None)
  end.

Module SendImageParams.
Record t := { ID : string; Link : string; Caption : string }.

Definition Validate (sip : option t) : option error :=
  match sip with
  | None => Some (Errorf "image parameters cannot be nil")
  | Some sip =>
      if String.eqb (ID sip) "" && String.eqb (Link sip) ""
      then Some (Errorf "either ID or Link must be provided")
      else if negb (String.eqb (ID sip) "") && negb (String.eqb (Link sip) "")
      then Some (Errorf "only one of ID or Link should be provided")
      else if (1024 <? String.length (Caption sip))%nat
      then Some (Errorf "caption exceeds maximum length of 1024 characters")
      else None
  end.
End SendImageParams.

(** [NewSendImageParamsWithID(id, caption...)]: of the captions given the
    first one is used. *)
Definition NewSendImageParamsWithID (id : string) (caption : list string)
  : option SendImageParams.t * option error :=
  let params := {| SendImageParams.ID := id; SendImageParams.Link := "";
                   SendImageParams.Caption := match caption with
                                              | c :: _ => c
                                              | [] => ""
                                              end |} in
  match SendImageParams.Validate (Some params) with
  | Some err => (None, Some err)
  | None => (Some params, None)
  end.

(** [NewSendImageParamsWithLink(link, caption...)]. *)
Definition NewSendImageParamsWithLink (link : string) (caption : list string)
  : option SendImageParams.t * option error :=
  let params := {| SendImageParams.ID := ""; SendImageParams.Link := link;
                   SendImageParams.Caption := match caption with
                                              | c :: _ => c
                                              | [] => ""
                                              end |} in
  match SendImageParams.Validate (Some params) with
  | Some err => (None, Some err)
  | None => (Some params, None)
  end.

Module UploadMediaParams.
(** [File] is an [io.Reader], nil or what it reads. *)
Record t := {
  File : option io.ReadCloser;
  Filename : string;
  MimeType : string;
  MessagingProduct : string
}.

Definition Validate (ump : option t) : option error :=
  match ump with
  | None => Some (Errorf "upload media parameters cannot be nil")
  | Some ump =>
      match File ump with
      | None => Some (Errorf "file is required")
      | Some _ =>
          if String.eqb (Filename ump) ""
          then Some (Errorf "filename is required")
          else if String.eqb (MimeType ump) ""
          then Some (Errorf "mime type is required")
          else if negb (String.eqb (MessagingProduct ump) MessagingProductWhatsApp)
          then Some (Errorf "messaging product must be 'whatsapp'")
          else None
      end
  end.
End UploadMediaParams.

(** [NewUploadMediaParams]. *)
Definition NewUploadMediaParams (file : option io.ReadCloser)
    (filename mimeType : string)
  : option UploadMediaParams.t * option error :=
  let params := {| UploadMediaParams.File := file;
                   UploadMediaParams.Filename := filename;
                   UploadMediaParams.MimeType := mimeType;
                   UploadMediaParams.MessagingProduct :=
                     MessagingProductWhatsApp |} in
  match UploadMediaParams.Validate (Some params) with
  | Some err => (None, Some err)
  | None => (Some params, None)
  end.

(** An [ActionParameters]: nil, a [*FlowParameters], a [*CTAURLParameters]
    (either pointer may be nil inside the interface), or an implementation
    of the host, given by what its two methods return. *)
Inductive ActionParameters :=
| Parameters_nil
| Parameters_Flow (fp : option FlowParameters.t)
| Parameters_CTAURL (cp : option CTAURLParameters.t)
| Parameters_Other (actionType : string) (validate : option error).

Definition ActionType (p : ActionParameters) : string :=
  match p with
  | Parameters_nil => ""
  | Parameters_Flow fp => FlowParameters.ActionType fp
  | Parameters_CTAURL cp => CTAURLParameters.ActionType cp
  | Parameters_Other a _ => a
  end.

Definition Validate (p : ActionParameters) : option error :=
  match p with
  | Parameters_nil => None
  | Parameters_Flow fp => FlowParameters.Validate fp
  | Parameters_CTAURL cp => CTAURLParameters.Validate cp
  | Parameters_Other _ v => v
  end.

Module Action.
Record ReplyButton := { ReplyID : string; ReplyTitle : string }.
Record Button := { ButtonType : string; Reply : option ReplyButton }.
Record ListRow := { RowID : string; RowTitle : string; Description : string }.
Record ListSection := { Title : string; Rows : list ListRow }.

Record t := {
  Name : string;
  Parameters : ActionParameters;
  Buttons : list Button;
  Button_ : string;
  Sections : list ListSection
}.
End Action.

(** [ValidateAction]. *)
Definition ValidateAction (action : option Action.t) : option error :=
  match action with
  | None => Some (Errorf "action cannot be nil")
  | Some action =>
      match Action.Parameters action with
      | Parameters_nil => None
      | p =>
          let expectedType := ActionType p in
          if negb (String.eqb (Action.Name action) "")
             && negb (String.eqb (Action.Name action) expectedType)
          then Some (Errorf ("action name '" +:+ Action.Name action
                             +:+ "' does not match parameter type '"
                             +:+ expectedType +:+ "'"))
          else
            match Validate p with
            | Some err => Some (fmt.Errorf_w "parameter validation failed" err)
            | None => None
            end
      end
  end.

Module MediaObject.
Record t := { ID : string; Link : string; Caption : string; Filename : string }.
End MediaObject.

Module Header.
Record t := {
  Type_ : string;
  Text : string;
  Image : option MediaObject.t;
  Video : option MediaObject.t;
  Document : option MediaObject.t
}.
End Header.

Module Body.
Record t := { Text : string }.
End Body.

Module Footer.
Record t := { Text : string }.
End Footer.

Module SendInteractiveParams.
Record t := {
  Header : option Header.t;
  Body : option Body.t;
  Footer : option Footer.t;
  Action : option Action.t
}.

Definition Validate (sip : option t) : option error :=
  match sip with
  | None => Some (Errorf "interactive parameters cannot be nil")
  | Some sip =>
      match Body sip with
      | None => Some (Errorf "body is required")
      | Some _ =>
          match Action sip with
          | None => Some (Errorf "action is required")
          | Some _ => None
          end
      end
  end.
End SendInteractiveParams.

(** [NewSendInteractiveParams]. *)
Definition NewSendInteractiveParams (body : option Body.t)
    (action : option Action.t)
  : option SendInteractiveParams.t * option error :=
  let params := {| SendInteractiveParams.Header := None;
                   SendInteractiveParams.Body := body;
                   SendInteractiveParams.Footer := None;
                   SendInteractiveParams.Action := action |} in
  match SendInteractiveParams.Validate (Some params) with
  | Some err => (None, Some err)
  | None => (Some params, None)
  end.

(** ** Media limits *)

Definition MaxImageSize : Z := 5 * 1024 * 1024.
Definition MaxAudioSize : Z := 16 * 1024 * 1024.
Definition MaxVideoSize : Z := 16 * 1024 * 1024.
Definition MaxDocumentSize : Z := 100 * 1024 * 1024.
Definition MaxStickerSize : Z := 100 * 1024.

Definition MimeTypeImageJPEG : string := "image/jpeg".
Definition MimeTypeImagePNG : string := "image/png".
Definition MimeTypeImageWebP : string := "image/webp".
Definition MimeTypeAudioAAC : string := "audio/aac".
Definition MimeTypeAudioMP4 : string := "audio/mp4".
Definition MimeTypeAudioMPEG : string := "audio/mpeg".
Definition MimeTypeAudioAMR : string := "audio/amr".
Definition MimeTypeAudioOGG : string := "audio/ogg".
Definition MimeTypeVideoMP4 : string := "video/mp4".
Definition MimeTypeVideo3GPP : string := "video/3gpp".
Definition MimeTypeDocumentPDF : string := "application/pdf".
Definition MimeTypeDocumentDOCX : string :=
  "application/vnd.openxmlformats-officedocument.wordprocessingml.document".
Definition MimeTypeDocumentPPTX : string :=
  "application/vnd.openxmlformats-officedocument.presentationml.presentation".
Definition MimeTypeDocumentXLSX : string :=
  "application/vnd.openxmlformats-officedocument.spreadsheetml.sheet".
Definition MimeTypeStickerWebP : string := "image/webp".

(** [ValidateMediaSize]: the first case of the switch that holds decides. *)
Definition ValidateMediaSize (mimeType : string) (size : Z) : option error :=
  if size <=? 0
  then Some (Errorf ("invalid media size: " +:+ itoa size))
  else if String.eqb mimeType MimeTypeImageJPEG
          || String.eqb mimeType MimeTypeImagePNG
          || String.eqb mimeType MimeTypeImageWebP
  then
    if MaxImageSize <? size
    then Some (Errorf ("image size " +:+ itoa size
                       +:+ " exceeds maximum allowed size " +:+ itoa MaxImageSize))
    else None
  else if String.eqb mimeType MimeTypeAudioAAC
          || String.eqb mimeType MimeTypeAudioMP4
          || String.eqb mimeType MimeTypeAudioMPEG
          || String.eqb mimeType MimeTypeAudioAMR
          || String.eqb mimeType MimeTypeAudioOGG
  then
    if MaxAudioSize <? size
    then Some (Errorf ("audio size " +:+ itoa size
                       +:+ " exceeds maximum allowed size " +:+ itoa MaxAudioSize))
    else None
  else if String.eqb mimeType MimeTypeVideoMP4
          || String.eqb mimeType MimeTypeVideo3GPP
  then
    if MaxVideoSize <? size
    then Some (Errorf ("video size " +:+ itoa size
                       +:+ " exceeds maximum allowed size " +:+ itoa MaxVideoSize))
    else None
  else if String.eqb mimeType MimeTypeDocumentPDF
          || String.eqb mimeType MimeTypeDocumentDOCX
          || String.eqb mimeType MimeTypeDocumentPPTX
          || String.eqb mimeType MimeTypeDocumentXLSX
  then
    if MaxDocumentSize <? size
    then Some (Errorf ("document size " +:+ itoa size
                       +:+ " exceeds maximum allowed size "
                       +:+ itoa MaxDocumentSize))
    else None
  else if String.eqb mimeType MimeTypeStickerWebP
  then
    if MaxStickerSize <? size
    then Some (Errorf ("sticker size " +:+ itoa size
                       +:+ " exceeds maximum allowed size "
                       +:+ itoa MaxStickerSize))
    else None
  else Some (Errorf ("unsupported MIME type: " +:+ mimeType)).

Definition supportedTypes : list string :=
  [MimeTypeImageJPEG; MimeTypeImagePNG; MimeTypeImageWebP;
   MimeTypeAudioAAC; MimeTypeAudioMP4; MimeTypeAudioMPEG; MimeTypeAudioAMR;
   MimeTypeAudioOGG;
   MimeTypeVideoMP4; MimeTypeVideo3GPP;
   MimeTypeDocumentPDF; MimeTypeDocumentDOCX; MimeTypeDocumentPPTX;
   MimeTypeDocumentXLSX;
   MimeTypeStickerWebP].

(** [ValidateMimeType]: the loop over [supportedTypes]. *)
Definition ValidateMimeType (mimeType : string) : option error :=
  (fix loop (ts : list string) : option error :=
     match ts with
     | [] => Some (Errorf ("unsupported MIME type: " +:+ mimeType))
     | supportedType :: ts' =>
         if String.eqb mimeType supportedType then None else loop ts'
     end) supportedTypes.

(** ** Media of a received message *)

(** [message.<slot>.ID] when the pointer [message.<slot>] is not nil. *)
Definition media_id (slot : string) (message : goval) : option string :=
  match get WebhookMessage slot message with
  | Some (VPtr (Some media)) =>
      match get WebhookMessageMedia "ID" media with
      | Some (VString id) => Some id
      | _ => None
      end
  | _ => None
  end.

(** [ExtractMediaID]: the case of the switch that [message.Type] selects,
    and the empty string when its pointer is nil or no case is selected. *)
Definition ExtractMediaID (message : option goval) : string :=
  match message with
  | None => ""
  | Some message =>
      match get WebhookMessage "Type" message with
      | Some (VString type) =>
          let slot :=
            if String.eqb type MessageTypeImage then Some "Image"
            else if String.eqb type MessageTypeAudio then Some "Audio"
            else if String.eqb type MessageTypeVideo then Some "Video"
            else if String.eqb type MessageTypeDocument then Some "Document"
            else if String.eqb type MessageTypeSticker then Some "Sticker"
            else None in
          match slot with
          | Some slot => default "" (media_id slot message)
          | None => ""
          end
      | _ => ""
      end
  end.

(** ** Links *)
Module Link.
Record t := { Text : string; Link : string }.
End Link.



(** The calls that only the POST pipeline makes. *)
Definition is_pipeline_call (c : call) : bool :=
  match c with
  | CallReadAll | CallClose | CallVerifySignature _ | CallUnmarshal _
  | CallHandleWebhookErr _ _ | CallHandleWebhook _ | CallError _ _ => true
  | CallWriteHeader _ | CallWrite _ => false
  end.

(** The envelope of the specification's example: one entry, one change,
    one text message "hi". *)
Definition text_message_body : list byte :=
  bytes_of_string
    (quoted
       ("{'object':'whatsapp_business_account','entry':[{'id':'1',"
        +:+ "'changes':[{'field':'messages','value':{"
        +:+ "'messaging_product':'whatsapp','metadata':{"
        +:+ "'display_phone_number':'1','phone_number_id':'2'},"
        +:+ "'messages':[{'from':'123','id':'m1',"
        +:+ "'timestamp':'1000','type':'text','text':{'body':'hi'}}]}}]}]}")).

(** The request the platform sends for a body under the secret "abc". *)
Definition signed_post (body : list byte) : http.Request :=
  post {[ "X-Hub-Signature-256" :=
            [signature_of "sha256=" sha256.New "abc" body] ]} body.

(** The media types of a received message that carry a media object, each
    with the field of [WebhookMessage] that holds it: the cases of the
    switch of [ExtractMediaID]. *)
Definition media_slots : list (string * string) :=
  [(MessageTypeImage, "Image"); (MessageTypeAudio, "Audio");
   (MessageTypeVideo, "Video"); (MessageTypeDocument, "Document");
   (MessageTypeSticker, "Sticker")].

(** The object of a received image with its identifier. *)
Definition image_message : json.value :=
  json.Object
    [("from", json.String_ "123");
     ("type", json.String_ "image");
     ("image", json.Object [("mime_type", json.String_ "image/jpeg");
                            ("id", json.String_ "media-1")])].

(** * Theorems *)

Lemma byte_to_Z_range b : 0 <= byte_to_Z b < 256.
Proof.
  unfold byte_to_Z. pose proof (Byte.to_N_bounded b). lia.
Qed.

Lemma byte_of_to_Z b : byte_of_Z (byte_to_Z b) = b.
Proof.
  unfold byte_of_Z. pose proof (byte_to_Z_range b).
  rewrite Z.mod_small by lia. unfold byte_to_Z.
  rewrite N2Z.id, Byte.of_to_N. reflexivity.
Qed.

Lemma byte_to_Z_inj a b : byte_to_Z a = byte_to_Z b -> a = b.
Proof.
  intros H. rewrite <- (byte_of_to_Z a), <- (byte_of_to_Z b). congruence.
Qed.

Lemma bytes_of_string_inj s t : bytes_of_string s = bytes_of_string t -> s = t.
Proof.
  unfold bytes_of_string. intros H.
  rewrite <- (string_of_list_byte_of_string s), <- (string_of_list_byte_of_string t).
  congruence.
Qed.

Lemma string_of_bytes_inj a b : string_of_bytes a = string_of_bytes b -> a = b.
Proof.
  unfold string_of_bytes. intros H.
  rewrite <- (list_byte_of_string_of_list_byte a), <- (list_byte_of_string_of_list_byte b).
  congruence.
Qed.

(** * subtle.ConstantTimeCompare is equality *)
Lemma xor_fold_0 (l : list (byte * byte)) v :
  0 <= v ->
  fold_left (fun v xy => Z.lor v (Z.lxor (byte_to_Z (fst xy)) (byte_to_Z (snd xy)))) l v = 0
  <-> v = 0 /\ Forall (fun xy => fst xy = snd xy) l.
Proof.
  revert v. induction l as [|[x y] l IH]; intros v Hv; simpl.
  - split; [intros ->; split; [reflexivity|constructor] | intros [-> _]; reflexivity].
  - pose proof (byte_to_Z_range x). pose proof (byte_to_Z_range y).
    rewrite IH.
    2:{ apply Z.lor_nonneg. split; [assumption|]. apply Z.lxor_nonneg. lia. }
    rewrite Z.lor_eq_0_iff, Z.lxor_eq_0_iff. split.
    + intros [[-> E] F]. split; [reflexivity|]. constructor; [|assumption].
      simpl. apply byte_to_Z_inj, E.
    + intros [-> F]. inversion F as [|? ? E F']; subst. simpl in E. subst.
      repeat split; assumption.
Qed.

Lemma combine_Forall_eq {A} (x y : list A) :
  length x = length y -> Forall (fun xy => fst xy = snd xy) (combine x y) -> x = y.
Proof.
  revert y. induction x as [|a x IH]; intros [|b y]; simpl; try discriminate; auto.
  intros [= L] F. inversion F as [|? ? E F']; subst. simpl in E. subst.
  f_equal. auto.
Qed.

Lemma combine_same_Forall {A} (x : list A) :
  Forall (fun xy => fst xy = snd xy) (combine x x).
Proof. induction x; simpl; constructor; auto. Qed.

Lemma ConstantTimeCompare_eq x y :
  subtle.ConstantTimeCompare x y = 1 <-> x = y.
Proof.
  unfold subtle.ConstantTimeCompare.
  destruct (Nat.eqb_spec (length x) (length y)) as [L|L]; simpl.
  - destruct (Z.eqb_spec (fold_left
        (fun v xy => Z.lor v (Z.lxor (byte_to_Z (fst xy)) (byte_to_Z (snd xy))))
        (combine x y) 0) 0) as [E|E].
    + apply xor_fold_0 in E; [|lia]. destruct E as [_ F].
      split; [intros _; apply combine_Forall_eq; assumption | reflexivity].
    + split; [discriminate|]. intros ->. exfalso. apply E.
      apply xor_fold_0; [lia|]. split; [reflexivity|apply combine_same_Forall].
  - split; [discriminate|]. intros ->. contradiction.
Qed.

Lemma hmac_Equal_eq x y : hmac.Equal x y = true <-> x = y.
Proof.
  unfold hmac.Equal. rewrite Z.eqb_eq. apply ConstantTimeCompare_eq.
Qed.

Lemma hmac_Equal_decide x y : hmac.Equal x y = bool_decide (x = y).
Proof.
  apply eq_true_iff_eq. rewrite hmac_Equal_eq, bool_decide_eq_true. reflexivity.
Qed.

(** * strings.CutPrefix *)
Lemma HasPrefix_app p e : strings.HasPrefix (p +:+ e) p = true.
Proof.
  induction p as [|c p IH]; simpl; [reflexivity|].
  rewrite Ascii.eqb_refl. exact IH.
Qed.

Lemma HasPrefix_inv s p :
  strings.HasPrefix s p = true -> exists e, s = p +:+ e.
Proof.
  revert s. induction p as [|c p IH]; intros s H; simpl in *.
  - exists s. reflexivity.
  - destruct s as [|d s]; [discriminate|].
    apply andb_true_iff in H as [E H]. apply Ascii.eqb_eq in E. subst d.
    destruct (IH _ H) as [e ->]. exists e. reflexivity.
Qed.

Lemma substring_all s : String.substring 0 (String.length s) s = s.
Proof. induction s; simpl; congruence. Qed.

Lemma substring_after p e :
  String.substring (String.length p)
    (String.length (p +:+ e) - String.length p) (p +:+ e) = e.
Proof.
  induction p as [|c p IH]; simpl.
  - rewrite Nat.sub_0_r. apply substring_all.
  - exact IH.
Qed.

Lemma CutPrefix_app p e : strings.CutPrefix (p +:+ e) p = (e, true).
Proof.
  unfold strings.CutPrefix. rewrite HasPrefix_app, substring_after. reflexivity.
Qed.

Lemma CutPrefix_found s p e :
  strings.CutPrefix s p = (e, true) <-> s = p +:+ e.
Proof.
  split.
  - unfold strings.CutPrefix. destruct (strings.HasPrefix s p) eqn:H; [|discriminate].
    destruct (HasPrefix_inv _ _ H) as [e' ->]. rewrite substring_after.
    congruence.
  - intros ->. apply CutPrefix_app.
Qed.

Lemma CutPrefix_not_found s p :
  strings.HasPrefix s p = false -> strings.CutPrefix s p = (s, false).
Proof. unfold strings.CutPrefix. intros ->. reflexivity. Qed.

Lemma append_cancel_l p a b : p +:+ a = p +:+ b -> a = b.
Proof. induction p; simpl; intros H; [exact H|]. injection H. auto. Qed.

(** * hex.EncodeToString is injective *)
Lemma hexval_digit n : 0 <= n < 16 -> json.hexval (hex.digit n) = Some n.
Proof.
  intros H. rewrite <- (Z2Nat.id n) by lia.
  assert (Z.to_nat n < 16)%nat as Hk by lia.
  generalize dependent (Z.to_nat n). clear. intros k Hk.
  do 16 (destruct k as [|k]; [reflexivity|]). lia.
Qed.

Lemma hex_pair_inj a b :
  hex.digit (Z.shiftr (byte_to_Z a) 4) = hex.digit (Z.shiftr (byte_to_Z b) 4) ->
  hex.digit (Z.land (byte_to_Z a) 0x0f) = hex.digit (Z.land (byte_to_Z b) 0x0f) ->
  a = b.
Proof.
  pose proof (byte_to_Z_range a) as Ha. pose proof (byte_to_Z_range b) as Hb.
  rewrite !Z.shiftr_div_pow2 by lia.
  change 0x0f with (Z.ones 4). rewrite !Z.land_ones by lia.
  change (2 ^ 4) with 16.
  intros H1 H2. apply (f_equal json.hexval) in H1, H2.
  rewrite !hexval_digit in H1, H2
    by (try apply Z.mod_pos_bound; try (split; [apply Z.div_pos|apply Z.div_lt_upper_bound]); lia).
  apply byte_to_Z_inj.
  rewrite (Z.div_mod (byte_to_Z a) 16), (Z.div_mod (byte_to_Z b) 16) by lia.
  congruence.
Qed.

Lemma hex_Encode_inj x y : hex.Encode x = hex.Encode y -> x = y.
Proof.
  revert y. induction x as [|a x IH]; intros [|b y]; simpl; try discriminate; auto.
  intros [= H1 H2 H3]. f_equal; [apply hex_pair_inj; assumption | auto].
Qed.

Lemma hex_EncodeToString_inj x y :
  hex.EncodeToString x = hex.EncodeToString y -> x = y.
Proof.
  unfold hex.EncodeToString. intros H. apply hex_Encode_inj, string_of_bytes_inj, H.
Qed.

(** * verifySignatureImpl accepts one signature *)
Lemma verifySignatureImpl_spec wh signature prefix body h :
  verifySignatureImpl wh signature prefix body h = true
  <-> signature =
      prefix +:+ hex.EncodeToString
                   (hmac.Sum_ h (bytes_of_string (AppSecret wh)) body).
Proof.
  unfold verifySignatureImpl.
  destruct (strings.CutPrefix signature prefix) as [e found] eqn:C.
  destruct found; simpl.
  - apply CutPrefix_found in C. subst signature.
    rewrite hmac_Equal_eq. split.
    + intros H. apply bytes_of_string_inj in H. congruence.
    + intros H. apply append_cancel_l in H. congruence.
  - split; [discriminate|]. intros ->. rewrite CutPrefix_app in C. discriminate.
Qed.

(** * The default error handler *)

Lemma NewWebhook_lookup webhookSecret appSecret handler σ :
  (NewWebhook webhookSecret appSecret handler σ).2
    !! (NewWebhook webhookSecret appSecret handler σ).1
  = Some {| WebhookSecret := webhookSecret; AppSecret := appSecret;
            Handler := handler;
            ErrHandler :=
              ErrHandler_Webhook
                (NewWebhook webhookSecret appSecret handler σ).1 |}.
Proof.
  unfold NewWebhook. simpl. rewrite lookup_alter_eq, lookup_insert_eq. reflexivity.
Qed.

Lemma NewWebhook_fresh webhookSecret appSecret handler σ :
  σ !! (NewWebhook webhookSecret appSecret handler σ).1 = None.
Proof.
  unfold NewWebhook. simpl. apply not_elem_of_dom, is_fresh.
Qed.

Lemma NewWebhook_other webhookSecret appSecret handler σ p :
  p <> (NewWebhook webhookSecret appSecret handler σ).1 ->
  (NewWebhook webhookSecret appSecret handler σ).2 !! p = σ !! p.
Proof.
  unfold NewWebhook. simpl. intros H.
  rewrite lookup_alter_ne, lookup_insert_ne by congruence. reflexivity.
Qed.

(** A webhook that is its own error handler never answers. *)
Lemma HandleWebhookErr_self σ wh w :
  σ !! wh = Some w -> ErrHandler w = ErrHandler_Webhook wh ->
  forall fuel ctx r err s,
    HandleWebhookErr fuel σ wh ctx r err s = OutOfFuel s.
Proof.
  intros Hw He fuel. induction fuel as [|fuel IH]; intros ctx r err s.
  - reflexivity.
  - simpl. unfold mbind, M_bind, deref. rewrite Hw, He. apply IH.
Qed.

(** More fuel does not change an answer. *)
Lemma HandleWebhookErr_fuel_mono σ fuel :
  forall wh ctx r err s b s',
    HandleWebhookErr fuel σ wh ctx r err s = Done b s' ->
    forall fuel', (fuel <= fuel')%nat ->
      HandleWebhookErr fuel' σ wh ctx r err s = Done b s'.
Proof.
  induction fuel as [|fuel IH]; intros wh ctx r err s b s' H fuel' L.
  - discriminate.
  - destruct fuel' as [|fuel']; [lia|]. simpl in *.
    unfold mbind, M_bind, deref in *.
    destruct (σ !! wh) as [w|]; [|discriminate].
    destruct (ErrHandler w); try exact H.
    apply IH with (fuel' := fuel') in H; [exact H|lia].
Qed.

Lemma HandleWebhookErr_hook σ wh w f fuel ctx r err s :
  σ !! wh = Some w -> hook_of w = Some f ->
  HandleWebhookErr (S fuel) σ wh ctx r err s
  = Done (f ctx (resp s) r err).1
         {| resp := (f ctx (resp s) r err).2; calls := calls s |}.
Proof.
  intros Hw Hf. simpl. unfold mbind, M_bind, deref. rewrite Hw.
  unfold hook_of in Hf. destruct (ErrHandler w); try discriminate.
  - injection Hf as <-. destruct s; reflexivity.
  - injection Hf as <-.
    match goal with |- context [?g ctx (resp s) r err] =>
      destruct (g ctx (resp s) r err) end.
    reflexivity.
Qed.

(** C1. A webhook made by [NewWebhook] is wired as its own error handler:
    whatever the fuel, the context, the envelope pointer and the error,
    [HandleWebhookErr] on it has not returned; it never returns [false]. *)
Theorem HandleWebhookErr_NewWebhook_never_returns
    webhookSecret appSecret handler σ fuel ctx r err s :
  HandleWebhookErr fuel
    (NewWebhook webhookSecret appSecret handler σ).2
    (NewWebhook webhookSecret appSecret handler σ).1 ctx r err s
  = OutOfFuel s.
Proof.
  eapply HandleWebhookErr_self.
  - apply NewWebhook_lookup.
  - reflexivity.
Qed.

(** * The signature verifier *)

Lemma canonical_256 :
  textproto.CanonicalMIMEHeaderKey "X-Hub-Signature-256" = "X-Hub-Signature-256".
Proof. reflexivity. Qed.

Lemma canonical_1 :
  textproto.CanonicalMIMEHeaderKey "X-Hub-Signature" = "X-Hub-Signature".
Proof. reflexivity. Qed.

Lemma eqb_empty_false s : s <> "" -> String.eqb s "" = false.
Proof. intros H. apply String.eqb_neq, H. Qed.

Lemma verifySignature_256 wh r body :
  http.Get (http.Header r) "X-Hub-Signature-256" <> "" ->
  verifySignature wh r body
  = verifySignatureImpl wh (http.Get (http.Header r) "X-Hub-Signature-256")
      "sha256=" body sha256.New.
Proof.
  intros H. unfold verifySignature. rewrite eqb_empty_false by exact H. reflexivity.
Qed.

Lemma verifySignature_1 wh r body :
  http.Get (http.Header r) "X-Hub-Signature-256" = "" ->
  http.Get (http.Header r) "X-Hub-Signature" <> "" ->
  verifySignature wh r body
  = verifySignatureImpl wh (http.Get (http.Header r) "X-Hub-Signature")
      "sha1=" body sha1.New.
Proof.
  intros H0 H. unfold verifySignature. rewrite H0. simpl.
  rewrite eqb_empty_false by exact H. reflexivity.
Qed.

Lemma verifySignature_none wh r body :
  http.Get (http.Header r) "X-Hub-Signature-256" = "" ->
  http.Get (http.Header r) "X-Hub-Signature" = "" ->
  verifySignature wh r body = false.
Proof. intros H0 H1. unfold verifySignature. rewrite H0, H1. reflexivity. Qed.

Lemma verifySignatureImpl_no_prefix wh signature prefix body h :
  strings.HasPrefix signature prefix = false ->
  verifySignatureImpl wh signature prefix body h = false.
Proof.
  intros H. unfold verifySignatureImpl. rewrite CutPrefix_not_found by exact H.
  reflexivity.
Qed.

Lemma signature_of_not_empty h secret body :
  signature_of "sha256=" h secret body <> ""
  /\ signature_of "sha1=" h secret body <> "".
Proof. split; discriminate. Qed.

(** C2, as the code has it. With the header [X-Hub-Signature-256] set to
    "sha256=" and the lower-case hexadecimal HMAC-SHA256 of the body [B]
    under the application secret, [verifySignature] accepts [B], the empty
    body included; and it rejects a body [B'] exactly when the HMAC-SHA256
    of [B'] differs from that of [B]. *)
Theorem verifySignature_round_trip wh r (B : list byte) :
  http.Get (http.Header r) "X-Hub-Signature-256"
    = signature_of "sha256=" sha256.New (AppSecret wh) B ->
  verifySignature wh r B = true
  /\ forall B' : list byte,
       verifySignature wh r B' = false
       <-> hmac.Sum_ sha256.New (bytes_of_string (AppSecret wh)) B'
           <> hmac.Sum_ sha256.New (bytes_of_string (AppSecret wh)) B.
Proof.
  intros H.
  assert (forall B', verifySignature wh r B' = true
            <-> hmac.Sum_ sha256.New (bytes_of_string (AppSecret wh)) B'
                = hmac.Sum_ sha256.New (bytes_of_string (AppSecret wh)) B) as K.
  { intros B'. rewrite verifySignature_256 by (rewrite H; discriminate).
    rewrite verifySignatureImpl_spec, H. unfold signature_of. split.
    - intros E. apply append_cancel_l, hex_EncodeToString_inj in E. congruence.
    - intros E. rewrite E. reflexivity. }
  split.
  - apply K. reflexivity.
  - intros B'. rewrite <- K. destruct (verifySignature wh r B'); split; congruence.
Qed.

(** C3. When both signature headers have a value, the SHA-256 one alone
    decides: valid, the request verifies, whatever the SHA-1 header is;
    invalid, it does not, whatever the SHA-1 header is. *)
Theorem verifySignature_precedence wh r body :
  http.Get (http.Header r) "X-Hub-Signature-256" <> "" ->
  http.Get (http.Header r) "X-Hub-Signature" <> "" ->
  (http.Get (http.Header r) "X-Hub-Signature-256"
     = signature_of "sha256=" sha256.New (AppSecret wh) body ->
   verifySignature wh r body = true)
  /\ (http.Get (http.Header r) "X-Hub-Signature-256"
        <> signature_of "sha256=" sha256.New (AppSecret wh) body ->
      verifySignature wh r body = false).
Proof.
  intros H256 _. rewrite verifySignature_256 by exact H256. split.
  - intros E. apply verifySignatureImpl_spec. exact E.
  - intros N. apply not_true_is_false. intros E.
    apply verifySignatureImpl_spec in E. contradiction.
Qed.

(** C4. Without a value in either signature header the verification
    fails, and so it does when the value of the header it selects does not
    start with the prefix of its algorithm. *)
Theorem verifySignature_fails_closed wh r body :
  (http.Get (http.Header r) "X-Hub-Signature-256" = ""
   /\ http.Get (http.Header r) "X-Hub-Signature" = "")
  \/ (http.Get (http.Header r) "X-Hub-Signature-256" <> ""
      /\ strings.HasPrefix
           (http.Get (http.Header r) "X-Hub-Signature-256") "sha256=" = false)
  \/ (http.Get (http.Header r) "X-Hub-Signature-256" = ""
      /\ http.Get (http.Header r) "X-Hub-Signature" <> ""
      /\ strings.HasPrefix
           (http.Get (http.Header r) "X-Hub-Signature") "sha1=" = false) ->
  verifySignature wh r body = false.
Proof.
  intros [[H0 H1]|[[H N]|[H0 [H N]]]].
  - apply verifySignature_none; assumption.
  - rewrite verifySignature_256 by exact H.
    apply verifySignatureImpl_no_prefix, N.
  - rewrite verifySignature_1 by assumption.
    apply verifySignatureImpl_no_prefix, N.
Qed.

(** C10. A header [X-Hub-Signature-256] that is there with the empty
    string as its value counts as absent: the header [X-Hub-Signature] is
    verified instead, and a valid SHA-1 signature in it verifies. *)
Theorem verifySignature_empty_256_falls_back wh r body (vs : list string) :
  http.Header r !! "X-Hub-Signature-256" = Some ("" :: vs) ->
  verifySignature wh r body
  = (if String.eqb (http.Get (http.Header r) "X-Hub-Signature") "" then false
     else verifySignatureImpl wh (http.Get (http.Header r) "X-Hub-Signature")
            "sha1=" body sha1.New)
  /\ (http.Get (http.Header r) "X-Hub-Signature"
        = signature_of "sha1=" sha1.New (AppSecret wh) body ->
      verifySignature wh r body = true).
Proof.
  intros H.
  assert (http.Get (http.Header r) "X-Hub-Signature-256" = "") as H0.
  { unfold http.Get. rewrite canonical_256, H. reflexivity. }
  split.
  - unfold verifySignature. rewrite H0. simpl.
    destruct (String.eqb _ ""); reflexivity.
  - intros E. rewrite verifySignature_1; [|exact H0|rewrite E; discriminate].
    apply verifySignatureImpl_spec. exact E.
Qed.

Lemma byte_card : card byte = 256%nat.
Proof. reflexivity. Qed.

Lemma Sum256_length data : length (sha256.Sum256 data) = 32%nat.
Proof.
  unfold sha256.Sum256, sha256.checkSum. rewrite !length_app. reflexivity.
Qed.

Lemma hmac_sha256_length key data :
  length (hmac.Sum_ sha256.New key data) = 32%nat.
Proof. unfold hmac.Sum_. exact (Sum256_length _). Qed.

(** Among the bodies of 33 bytes two have the same HMAC-SHA256, whatever
    the key: there are more of them than digests. *)
Lemma hmac_sha256_collision key :
  exists B B' : list byte,
    B <> B' /\ length B = length B'
    /\ hmac.Sum_ sha256.New key B = hmac.Sum_ sha256.New key B'.
Proof.
  pose (f := fun B : { l : list byte | length l = 33%nat } =>
               (hmac.Sum_ sha256.New key (`B) ↾ hmac_sha256_length key (`B)
                : { l : list byte | length l = 32%nat })).
  destruct (finite_pigeonhole f) as ([B HB] & [B' HB'] & Hne & Heq).
  - rewrite !list_card, byte_card. apply Nat.pow_lt_mono_r; lia.
  - exists B, B'. repeat split.
    + intros ->. apply Hne. f_equal. apply proof_irrel.
    + congruence.
    + apply (f_equal proj1_sig) in Heq. exact Heq.
Qed.

Lemma verifySignature_sha256_iff wh r (B B' : list byte) :
  http.Get (http.Header r) "X-Hub-Signature-256"
    = signature_of "sha256=" sha256.New (AppSecret wh) B ->
  verifySignature wh r B' = true
  <-> hmac.Sum_ sha256.New (bytes_of_string (AppSecret wh)) B'
      = hmac.Sum_ sha256.New (bytes_of_string (AppSecret wh)) B.
Proof.
  intros H. rewrite verifySignature_256 by (rewrite H; discriminate).
  rewrite verifySignatureImpl_spec, H. unfold signature_of. split.
  - intros E. apply append_cancel_l, hex_EncodeToString_inj in E. congruence.
  - intros E. rewrite E. reflexivity.
Qed.

Lemma Get_singleton_256 v :
  http.Get {[ "X-Hub-Signature-256" := [v] ]} "X-Hub-Signature-256" = v.
Proof. unfold http.Get. rewrite canonical_256, lookup_singleton_eq. reflexivity. Qed.

Lemma verifySignature_not_every_other_body_rejected :
  ~ (forall (wh : Webhook) (r : http.Request) (B B' : list byte),
       http.Get (http.Header r) "X-Hub-Signature-256"
         = signature_of "sha256=" sha256.New (AppSecret wh) B ->
       B' <> B ->
       verifySignature wh r B' = false).
Proof.
  intros claim.
  pose (wh := {| WebhookSecret := "token"; AppSecret := "abc";
                 Handler := None; ErrHandler := ErrHandler_nil |}).
  destruct (hmac_sha256_collision (bytes_of_string (AppSecret wh)))
    as (B & B' & Hne & _ & Heq).
  pose (r := request_with
               {[ "X-Hub-Signature-256" :=
                    [signature_of "sha256=" sha256.New (AppSecret wh) B] ]}).
  assert (http.Get (http.Header r) "X-Hub-Signature-256"
          = signature_of "sha256=" sha256.New (AppSecret wh) B) as Hh
    by apply Get_singleton_256.
  specialize (claim wh r B B' Hh (not_eq_sym Hne)).
  assert (verifySignature wh r B' = true) as Ht.
  { apply (verifySignature_sha256_iff wh r B B' Hh). symmetry. exact Heq. }
  congruence.
Qed.

(** * The challenge responder *)

(** C5. A GET request with [hub.mode] equal to "subscribe" and
    [hub.verify_token] equal to the webhook secret is answered with status
    200 and the bytes of [hub.challenge] as the body, the empty challenge
    included; any other GET request with status 403 and an empty body. *)
Theorem challenge_response σ wh w r fuel :
  σ !! wh = Some w ->
  http.Method r = http.MethodGet ->
  exists s,
    ServeHTTP fuel σ wh r start = Done tt s
    /\ (url.Get (http.Query r) "hub.mode" = "subscribe"
        /\ url.Get (http.Query r) "hub.verify_token" = WebhookSecret w ->
        http.status (resp s) = Some 200
        /\ http.written (resp s)
           = bytes_of_string (url.Get (http.Query r) "hub.challenge"))
    /\ (~ (url.Get (http.Query r) "hub.mode" = "subscribe"
           /\ url.Get (http.Query r) "hub.verify_token" = WebhookSecret w) ->
        http.status (resp s) = Some 403 /\ http.written (resp s) = []).
Proof.
  intros Hw Hm. unfold ServeHTTP. rewrite Hm. simpl.
  unfold mbind at 1. unfold M_bind, deref. rewrite Hw.
  unfold verifyChallenge.
  destruct (String.eqb_spec (url.Get (http.Query r) "hub.mode") "subscribe") as [E1|E1];
    [destruct (String.eqb_spec (url.Get (http.Query r) "hub.verify_token")
                               (WebhookSecret w)) as [E2|E2]|]; simpl.
  - eexists. split; [reflexivity|]. simpl. split; [intros _; split; reflexivity|].
    intros N. exfalso. apply N. split; assumption.
  - eexists. split; [reflexivity|]. simpl. split; [intros [_ E]; contradiction|].
    intros _. split; reflexivity.
  - eexists. split; [reflexivity|]. simpl. split; [intros [E _]; contradiction|].
    intros _. split; reflexivity.
Qed.

(** * The POST pipeline *)

Lemma HandleWebhookErr_calls σ fuel :
  forall wh ctx r err s,
    calls (final (HandleWebhookErr fuel σ wh ctx r err s)) = calls s.
Proof.
  induction fuel as [|fuel IH]; intros wh ctx r err s; simpl; [reflexivity|].
  unfold mbind, M_bind, deref. destruct (σ !! wh) as [w|]; [|reflexivity].
  destruct (ErrHandler w); simpl.
  - reflexivity.
  - apply IH.
  - destruct (f ctx (resp s) r err). reflexivity.
Qed.

Lemma hook_then_default σ fuel wh ctx req err text code s :
  exists tail,
    calls (final
      (defer (log CallClose)
         (handled ← HandleWebhookErr fuel σ wh ctx req err;
          if negb handled
          then log (CallError text code);; on_writer (http.Error text code)
          else mret tt) s)) = calls s ++ tail
    /\ after_hook text code tail.
Proof.
  pose proof (HandleWebhookErr_calls σ fuel wh ctx req err s) as H.
  unfold defer, mbind, M_bind.
  destruct (HandleWebhookErr fuel σ wh ctx req err s) as [[] s'|s'|s'];
    simpl in *; rewrite H.
  - exists [CallClose]. split; [reflexivity|right; left; reflexivity].
  - exists [CallError text code; CallClose]. rewrite <- app_assoc.
    split; [reflexivity|right; right; reflexivity].
  - exists [CallClose]. split; [reflexivity|right; left; reflexivity].
  - exists []. rewrite app_nil_r. split; [reflexivity|left; reflexivity].
Qed.

(** C6. A POST whose body is read and whose signature does not verify:
    the signature is checked on the bytes read, the hook is called with
    "invalid signature" and nothing else, and [json.Unmarshal] is not
    called, whatever the body is and whatever the hook does. *)
Theorem signature_failure_precedes_decoding σ wh w r fuel :
  σ !! wh = Some w ->
  io.err (http.Body r) = None ->
  verifySignature w r (io.data (http.Body r)) = false ->
  exists tail,
    calls (final (handleWebhookPOST fuel σ wh r start))
    = [CallReadAll; CallVerifySignature (io.data (http.Body r));
       CallHandleWebhookErr None (errors.New "invalid signature")] ++ tail
    /\ after_hook "Invalid signature" http.StatusForbidden tail
    /\ forall body, CallUnmarshal body
                    ∉ calls (final (handleWebhookPOST fuel σ wh r start)).
Proof.
  intros Hw Hr Hv.
  destruct (hook_then_default σ fuel wh (http.Context r) None
              (errors.New "invalid signature") "Invalid signature"
              http.StatusForbidden
              {| resp := http.NewRecorder;
                 calls := [CallReadAll;
                           CallVerifySignature (io.data (http.Body r));
                           CallHandleWebhookErr None
                             (errors.New "invalid signature")] |})
    as (tail & Ht & Ha).
  assert (calls (final (handleWebhookPOST fuel σ wh r start))
          = [CallReadAll; CallVerifySignature (io.data (http.Body r));
             CallHandleWebhookErr None (errors.New "invalid signature")] ++ tail) as E.
  { etransitivity; [|exact Ht]. unfold handleWebhookPOST, io.ReadAll. rewrite Hr.
    unfold defer, mbind, M_bind, log, deref, start. simpl. rewrite Hw, Hv. simpl.
    reflexivity. }
  exists tail. split; [exact E|]. split; [exact Ha|].
  intros body. rewrite E. intros Hin.
  apply elem_of_app in Hin as [Hin|Hin].
  - repeat (apply elem_of_cons in Hin as [Hin|Hin]; [discriminate|]).
    apply elem_of_nil in Hin. exact Hin.
  - destruct Ha as [ -> | [ -> | -> ] ];
      repeat (apply elem_of_cons in Hin as [Hin|Hin]; [discriminate|]);
      apply elem_of_nil in Hin; exact Hin.
Qed.

Section post_pipeline.
#[local] Arguments HandleWebhookErr : simpl never.
#[local] Arguments json.Unmarshal : simpl never.
#[local] Arguments zero : simpl never.
#[local] Arguments verifySignature : simpl never.

(** C7. A POST to a webhook with a handler and a hook of the host (or no
    hook): either the body is read, verified and decoded, the handler is
    called once with the envelope, the hook is not called and the webhook
    writes nothing; or the hook is called once with the first failure, the
    handler is not called, and the webhook writes nothing when the hook
    answers [true] and exactly the default response of that failure when it
    answers [false]. *)
Theorem one_handler_call_or_one_hook_call σ wh w h f r fuel :
  σ !! wh = Some w ->
  Handler w = Some h ->
  hook_of w = Some f ->
  exists s,
    handleWebhookPOST (S fuel) σ wh r start = Done tt s
    /\ match outcome w r with
       | inr request =>
           handler_calls (calls s) = [request]
           /\ hook_calls (calls s) = []
           /\ writes (calls s) = []
           /\ resp s = h (http.Context r) http.NewRecorder request
       | inl fl =>
           handler_calls (calls s) = []
           /\ hook_calls (calls s) = [reported fl]
           /\ (let (handled, rw) :=
                 f (http.Context r) http.NewRecorder
                   (reported fl).1 (reported fl).2 in
               if handled
               then writes (calls s) = [] /\ resp s = rw
               else writes (calls s)
                    = [CallError (default_response fl).1 (default_response fl).2]
                    /\ resp s = http.Error (default_response fl).1
                                           (default_response fl).2 rw)
       end.
Proof.
  intros Hw Hh Hf. unfold handleWebhookPOST, outcome, io.ReadAll.
  destruct (io.err (http.Body r)) as [e|].
  - unfold defer, mbind, M_bind, log, start. simpl.
    rewrite (HandleWebhookErr_hook σ wh w f fuel _ _ _ _ Hw Hf). simpl.
    destruct (f (http.Context r) http.NewRecorder None
                (fmt.Errorf_w "reading body" e)) as [[] rw]; simpl;
      eexists; (split; [reflexivity|]); simpl; repeat split; reflexivity.
  - unfold defer, mbind, M_bind, log, deref, start. simpl. rewrite Hw.
    destruct (verifySignature w r (io.data (http.Body r))); simpl.
    + destruct (json.Unmarshal WebhookRequest (io.data (http.Body r))
                  (zero WebhookRequest)) as [request [e|]].
      * rewrite (HandleWebhookErr_hook σ wh w f fuel _ _ _ _ Hw Hf). simpl.
        destruct (f (http.Context r) http.NewRecorder (Some request)
                    (fmt.Errorf_w "unmarshalling request body" e))
          as [[] rw]; simpl;
          eexists; (split; [reflexivity|]); simpl; repeat split; reflexivity.
      * rewrite Hh. unfold on_writer. simpl.
        eexists. split; [reflexivity|]. simpl. repeat split; reflexivity.
    + rewrite (HandleWebhookErr_hook σ wh w f fuel _ _ _ _ Hw Hf). simpl.
      destruct (f (http.Context r) http.NewRecorder None
                  (errors.New "invalid signature")) as [[] rw]; simpl;
        eexists; (split; [reflexivity|]); simpl; repeat split; reflexivity.
Qed.
End post_pipeline.

Section gotype_induction.
Variable P : gotype -> Prop.
Hypothesis HString : forall n, P (TString n).
Hypothesis HBool : P TBool.
Hypothesis HInt : P TInt.
Hypothesis HFloat64 : P TFloat64.
Hypothesis HPtr : forall elem, P elem -> P (TPtr elem).
Hypothesis HSlice : forall elem, P elem -> P (TSlice elem).
Hypothesis HStruct : forall n fields,
  Forall (fun f => P (snd f)) fields -> P (TStruct n fields).

Fixpoint gotype_nested_ind (t : gotype) : P t :=
  match t with
  | TString n => HString n
  | TBool => HBool
  | TInt => HInt
  | TFloat64 => HFloat64
  | TPtr elem => HPtr elem (gotype_nested_ind elem)
  | TSlice elem => HSlice elem (gotype_nested_ind elem)
  | TStruct n fields =>
      HStruct n fields
        ((fix all (fs : list (string * string * gotype))
            : Forall (fun f => P (snd f)) fs :=
            match fs with
            | [] => List.Forall_nil _
            | f :: fs' =>
                List.Forall_cons _ f fs'
                  (match f return P (snd f) with
                   | (_, ft) => gotype_nested_ind ft
                   end)
                  (all fs')
            end) fields)
  end.
End gotype_induction.

Lemma decode_struct n fields ms vs :
  json.decode (TStruct n fields) (json.Object ms) (VStruct vs)
  = let (vs', e) :=
      json.decode_members fields (map (fun f => json.decode (snd f)) fields)
                          ms vs in
    (VStruct vs', e).
Proof.
  simpl.
  match goal with
  | |- context [json.decode_members _ ?d _ _] =>
      replace d with (map (fun f => json.decode (snd f)) fields)
  end; [reflexivity|].
  induction fields as [|[[? ?] ft] fs IH]; simpl; [reflexivity|]. f_equal. exact IH.
Qed.

Lemma conforms_struct n fields ms :
  conforms (TStruct n fields) (json.Object ms)
  = forallb (fun m : string * json.value =>
               match json.findField fields (fst m) with
               | Some i =>
                   match (map (fun f => conforms (snd f)) fields !! i : option (json.value -> bool)) with
                   | Some c => c (snd m)
                   | None => true
                   end
               | None => true
               end) ms.
Proof.
  simpl.
  match goal with
  | |- forallb (fun m => match _ with
                         | Some i => match ?d !! i with _ => _ end
                         | None => _ end) _ = _ =>
      replace d with (map (fun f => conforms (snd f)) fields)
  end; [reflexivity|].
  induction fields as [|[[? ?] ft] fs IH]; simpl; [reflexivity|]. f_equal. exact IH.
Qed.

Lemma saveError_None e e' :
  e = None -> e' = None -> json.saveError e e' = None.
Proof. intros -> ->. reflexivity. Qed.

Lemma decode_elems_ok dec z js :
  Forall (fun j => forall v, snd (dec j v) = None) js ->
  forall backing, snd (json.decode_elems dec z js backing) = None.
Proof.
  induction 1 as [|j js Hj _ IH]; intros backing; simpl; [reflexivity|].
  specialize (Hj (hd z backing)). specialize (IH (tl backing)).
  destruct (dec j (hd z backing)) as [x e].
  destruct (json.decode_elems dec z js (tl backing)) as [[xs rest] e'].
  simpl in *. apply saveError_None; assumption.
Qed.

Lemma decode_members_ok fields decs ms :
  Forall (fun m : string * json.value =>
            forall i dec, json.findField fields (fst m) = Some i ->
                          decs !! i = Some dec ->
                          forall v, snd (dec (snd m) v) = None) ms ->
  forall vs, snd (json.decode_members fields decs ms vs) = None.
Proof.
  induction 1 as [|[key j] ms Hm _ IH]; intros vs; simpl; [reflexivity|].
  simpl in Hm. destruct (json.findField fields key) as [i|]; [|apply IH].
  destruct (decs !! i) as [dec|] eqn:Hd; [|apply IH].
  destruct (vs !! i) as [x|]; [|apply IH].
  specialize (Hm i dec eq_refl Hd x).
  destruct (dec j x) as [x' e]. specialize (IH (<[i:=x']> vs)).
  destruct (json.decode_members fields decs ms (<[i:=x']> vs)) as [vs' e'].
  simpl in *. apply saveError_None; assumption.
Qed.

(** Decoding a document that has the shape of the type saves no error. *)
Lemma decode_conforms t :
  forall j v, conforms t j = true -> snd (json.decode t j v) = None.
Proof.
  induction t as [n| | | |elem IH|elem IH|n fields IH] using gotype_nested_ind;
    intros j v C.
  - destruct j; try discriminate; reflexivity.
  - destruct j; try discriminate; reflexivity.
  - destruct j; try discriminate; [reflexivity|]. simpl in *.
    apply bool_decide_eq_true in C. destruct C as [z ->]. reflexivity.
  - destruct j; try discriminate; [reflexivity|]. simpl in *.
    apply bool_decide_eq_true in C. destruct C as [z ->]. reflexivity.
  - simpl in C. specialize (IH j). simpl.
    destruct j; try reflexivity;
      match goal with
      | |- context [json.decode elem ?j ?x] =>
          specialize (IH x C); destruct (json.decode elem j x); exact IH
      end.
  - destruct j; try discriminate; [reflexivity|]. simpl in C.
    change (json.decode (TSlice elem) (json.Array elems) v)
      with (json.decode_array (json.decode elem) (zero elem) elems v).
    unfold json.decode_array. destruct elems as [|j js]; [reflexivity|].
    assert (Forall (fun j => forall v, snd (json.decode elem j v) = None) (j :: js)) as F.
    { apply Forall_forall. intros j' Hin v'. apply IH.
      rewrite forallb_forall in C. apply C, list_elem_of_In, Hin. }
    pose proof (decode_elems_ok _ (zero elem) _ F
                  (match v with VSlice (Some (els, spare)) => els ++ spare | _ => [] end)) as K.
    destruct (json.decode_elems _ _ _ _) as [[xs rest] e]. exact K.
  - destruct j; try discriminate; [reflexivity|].
    rewrite conforms_struct in C. destruct v; try reflexivity.
    rewrite decode_struct.
    assert (Forall (fun m : string * json.value =>
              forall i dec, json.findField fields (fst m) = Some i ->
                map (fun f => json.decode (snd f)) fields !! i = Some dec ->
                forall v, snd (dec (snd m) v) = None) members) as F.
    { apply Forall_forall. intros [key j] Hin i dec Hi Hd v. simpl in *.
      rewrite forallb_forall in C. specialize (C (key, j)). simpl in C.
      rewrite Hi in C. rewrite list_lookup_fmap in Hd.
      change (map (fun f => conforms f.2) fields) with ((fun f => conforms f.2) <$> fields) in C.
      rewrite list_lookup_fmap in C.
      destruct (fields !! i) as [f|] eqn:Hf; [|discriminate].
      simpl in *. injection Hd as <-.
      rewrite Forall_forall in IH. apply IH.
      - eapply list_elem_of_lookup_2, Hf.
      - apply C, list_elem_of_In, Hin. }
    pose proof (decode_members_ok _ _ _ F fields0) as K.
    destruct (json.decode_members _ _ _ _). exact K.
Qed.

Lemma zero_struct n fields :
  zero (TStruct n fields) = VStruct (map (fun f => zero (snd f)) fields).
Proof.
  simpl. f_equal.
  induction fields as [|[[? ?] ft] fs IH]; simpl; [reflexivity|]. f_equal. exact IH.
Qed.


Lemma decode_members_app fields decs ms1 ms2 :
  forall vs,
    fst (json.decode_members fields decs (ms1 ++ ms2) vs)
    = fst (json.decode_members fields decs ms2
             (fst (json.decode_members fields decs ms1 vs))).
Proof.
  induction ms1 as [|[key j] ms1 IH]; intros vs; simpl; [reflexivity|].
  destruct (json.findField fields key) as [i|]; [|apply IH].
  destruct (decs !! i) as [dec|]; [|apply IH].
  destruct (vs !! i) as [x|]; [|apply IH].
  destruct (dec j x) as [x' e]. specialize (IH (<[i:=x']> vs)).
  destruct (json.decode_members fields decs (ms1 ++ ms2) (<[i:=x']> vs)) as [vs' e'].
  destruct (json.decode_members fields decs ms1 (<[i:=x']> vs)) as [vs1 e1].
  simpl in *. exact IH.
Qed.

(** Members that do not select a field leave it as it is. *)
Lemma decode_members_untouched fields decs i ms :
  Forall (fun m : string * json.value => json.findField fields (fst m) <> Some i) ms ->
  forall vs, fst (json.decode_members fields decs ms vs) !! i = vs !! i.
Proof.
  induction 1 as [|[key j] ms Hm _ IH]; intros vs; simpl; [reflexivity|].
  simpl in Hm. destruct (json.findField fields key) as [k|]; [|apply IH].
  destruct (decs !! k) as [dec|]; [|apply IH].
  destruct (vs !! k) as [x|]; [|apply IH].
  destruct (dec j x) as [x' e]. specialize (IH (<[k:=x']> vs)).
  destruct (json.decode_members fields decs ms (<[k:=x']> vs)) as [vs' e'].
  simpl in *. rewrite IH. apply list_lookup_insert_ne. congruence.
Qed.

(** A member that selects a field leaves there what its value decodes to. *)
Lemma decode_members_one fields decs key j i dec vs x :
  json.findField fields key = Some i -> decs !! i = Some dec -> vs !! i = Some x ->
  fst (json.decode_members fields decs [(key, j)] vs) = <[i := fst (dec j x)]> vs.
Proof.
  intros Hi Hd Hx. simpl. rewrite Hi, Hd, Hx. destruct (dec j x). reflexivity.
Qed.

Lemma not_selects n fields name i ms :
  field_index name fields = Some i ->
  has_key (TStruct n fields) name ms = false ->
  Forall (fun m : string * json.value => json.findField fields (fst m) <> Some i) ms.
Proof.
  intros Hi H. apply Forall_forall. intros m Hin Hf.
  apply not_true_iff_false in H. apply H. unfold has_key.
  apply existsb_exists. exists m. split; [apply list_elem_of_In, Hin|].
  simpl. rewrite Hf, Hi. apply Nat.eqb_refl.
Qed.

Section field_of_struct.
Variables (n : string) (fields : list (string * string * gotype)).
Variables (name jsonkey : string) (ft : gotype) (i : nat).
Hypothesis Hindex : field_index name fields = Some i.
Hypothesis Hfield : fields !! i = Some (name, jsonkey, ft).

Lemma get_decoded ms v vs :
  v = VStruct vs ->
  get (TStruct n fields) name (fst (json.decode (TStruct n fields) (json.Object ms) v))
  = fst (json.decode_members fields (map (fun f => json.decode (snd f)) fields) ms vs) !! i.
Proof.
  intros ->. rewrite decode_struct.
  destruct (json.decode_members _ _ ms vs) as [vs' e]. simpl.
  rewrite Hindex. reflexivity.
Qed.


End field_of_struct.



Lemma has_type_struct n fields vs :
  has_type (TStruct n fields) (VStruct vs)
  <-> Forall2 (fun f x => has_type (snd f) x) fields vs.
Proof.
  simpl. revert vs.
  induction fields as [|[[? ?] ft] fs IH]; intros vs; simpl.
  - split; intros H; inversion H; constructor.
  - split; intros H; inversion H; subst; constructor; try assumption;
      apply IH; assumption.
Qed.

Lemma has_type_zero t : has_type t (zero t).
Proof.
  induction t as [n| | | |elem IH|elem IH|n fields IH] using gotype_nested_ind;
    try exact I.
  rewrite zero_struct. apply (proj2 (has_type_struct _ _ _)).
  induction IH as [|f fs Hf _ IHfs]; simpl; constructor; assumption.
Qed.

Lemma decode_elems_typed (dec : json.value -> goval -> goval * option error)
    (h : goval -> Prop) z js :
  h z -> (forall j v, h v -> h (fst (dec j v))) ->
  forall backing, Forall h backing ->
    Forall h (fst (fst (json.decode_elems dec z js backing)))
    /\ Forall h (snd (fst (json.decode_elems dec z js backing))).
Proof.
  intros Hz Hd. induction js as [|j js IH]; intros backing Hb; simpl.
  - split; [constructor|exact Hb].
  - assert (h (hd z backing)) as Hh by (destruct Hb; assumption).
    assert (Forall h (tl backing)) as Ht by (destruct Hb; [constructor|assumption]).
    specialize (Hd j _ Hh). specialize (IH _ Ht).
    destruct (dec j (hd z backing)) as [x e].
    destruct (json.decode_elems dec z js (tl backing)) as [[xs rest] e'].
    simpl in *. destruct IH. split; [constructor|]; assumption.
Qed.

Lemma decode_members_typed fields decs ms :
  Forall2 (fun (f : string * string * gotype)
               (dec : json.value -> goval -> goval * option error) =>
             forall j v, has_type (snd f) v -> has_type (snd f) (fst (dec j v)))
          fields decs ->
  forall vs, Forall2 (fun f x => has_type (snd f) x) fields vs ->
    Forall2 (fun f x => has_type (snd f) x) fields
            (fst (json.decode_members fields decs ms vs)).
Proof.
  intros Hd. induction ms as [|[key j] ms IH]; intros vs Hvs; simpl; [exact Hvs|].
  destruct (json.findField fields key) as [i|]; [|apply IH, Hvs].
  destruct (decs !! i) as [dec|] eqn:Ed; [|apply IH, Hvs].
  destruct (vs !! i) as [x|] eqn:Ex; [|apply IH, Hvs].
  destruct (dec j x) as [x' e] eqn:E.
  assert (Forall2 (fun f x => has_type (snd f) x) fields (<[i:=x']> vs)) as H'.
  { destruct (Forall2_lookup_r _ _ _ _ _ Hvs Ex) as (f & Hf & Hx).
    rewrite <- (list_insert_id fields i f Hf).
    apply Forall2_insert; [exact Hvs|].
    destruct (Forall2_lookup_l _ _ _ _ _ Hd Hf) as (dec' & Hdec & Hp).
    rewrite Ed in Hdec. injection Hdec as <-.
    specialize (Hp j x Hx). rewrite E in Hp. exact Hp. }
  specialize (IH _ H').
  destruct (json.decode_members fields decs ms (<[i:=x']> vs)) as [vs' e'].
  exact IH.
Qed.

(** Decoding leaves in a variable a value of the variable's type. *)
Lemma decode_typed t :
  forall j v, has_type t v -> has_type t (fst (json.decode t j v)).
Proof.
  induction t as [n| | | |elem IH|elem IH|n fields IH] using gotype_nested_ind;
    intros j v H.
  - destruct j; simpl; try exact H; exact I.
  - destruct j; simpl; try exact H; exact I.
  - destruct j; simpl; try exact H. destruct (json.ParseInt lit); [exact I|exact H].
  - destruct j; simpl; try exact H. destruct (json.ParseFloat lit); [exact I|exact H].
  - destruct j; try exact I; simpl;
      match goal with
      | |- context [json.decode elem ?j ?x] =>
          assert (has_type elem x) as Hx
            by (destruct v as [| | | |[x'|]| |]; try apply has_type_zero; exact H);
          specialize (IH j x Hx); destruct (json.decode elem j x); exact IH
      end.
  - destruct j; try exact H; [exact I|].
    change (json.decode (TSlice elem) (json.Array elems) v)
      with (json.decode_array (json.decode elem) (zero elem) elems v).
    unfold json.decode_array. destruct elems as [|j js]; [split; constructor|].
    assert (Forall (has_type elem)
              (match v with VSlice (Some (els, spare)) => els ++ spare | _ => [] end))
      as Hb.
    { destruct v as [| | | | |[[els spare]|]|]; try constructor.
      destruct H. apply Forall_app. split; assumption. }
    pose proof (decode_elems_typed (json.decode elem) (has_type elem) (zero elem)
                  (j :: js) (has_type_zero elem) IH _ Hb) as K.
    destruct (json.decode_elems _ _ _ _) as [[xs rest] e]. exact K.
  - destruct v as [| | | | | |vs]; try (destruct H; fail).
    destruct j; try exact H. rewrite decode_struct.
    assert (Forall2 (fun f x => has_type (snd f) x) fields
              (fst (json.decode_members fields
                      (map (fun f => json.decode (snd f)) fields) members vs)))
      as K.
    { apply decode_members_typed; [|exact (proj1 (has_type_struct _ _ _) H)].
      clear -IH. induction IH as [|f fs Hf _ IHfs]; simpl; constructor; assumption. }
    destruct (json.decode_members _ _ members vs) as [vs' e].
    apply (proj2 (has_type_struct _ _ _)). exact K.
Qed.

Lemma sent_split t name ms j :
  sent t name (json.Object ms) = Some j ->
  exists ms1 key ms2,
    ms = ms1 ++ (key, j) :: ms2
    /\ selects t name key = true
    /\ has_key t name ms2 = false.
Proof.
  unfold sent, has_key.
  induction ms as [|[k x] ms IH] using rev_ind; [discriminate|].
  rewrite List.filter_app, fmap_app. simpl.
  destruct (selects t name k) eqn:Es; simpl.
  - rewrite last_snoc. intros [= <-]. exists ms, k, []. rewrite Es. auto.
  - rewrite app_nil_r. intros H.
    destruct (IH H) as (ms1 & key & ms2 & -> & Hs & Hn).
    exists ms1, key, (ms2 ++ [(k, x)]).
    rewrite <- app_assoc. simpl. repeat split; [exact Hs|].
    rewrite existsb_app, Hn. simpl. rewrite Es. reflexivity.
Qed.

Section sent_field.
Variables (n : string) (fields : list (string * string * gotype)).
Variables (name jsonkey : string) (ft : gotype) (i : nat).
Hypothesis Hindex : field_index name fields = Some i.
Hypothesis Hfield : fields !! i = Some (name, jsonkey, ft).

(** The field of a decoded struct holds what the last member that selects
    it decodes to, from what the members before it left there. *)
Lemma sent_field_decoded j x v :
  has_type (TStruct n fields) v ->
  sent (TStruct n fields) name j = Some x ->
  exists old,
    has_type ft old
    /\ get (TStruct n fields) name (fst (json.decode (TStruct n fields) j v))
       = Some (fst (json.decode ft x old)).
Proof.
  intros Hv Hs. destruct j as [| | | | |ms]; try discriminate.
  destruct v as [| | | | | |vs]; try (destruct Hv; fail).
  destruct (sent_split _ _ _ _ Hs) as (ms1 & key & ms2 & -> & Hk & Hn).
  rewrite (get_decoded n fields name i Hindex _ _ vs eq_refl).
  change (ms1 ++ (key, x) :: ms2) with (ms1 ++ [(key, x)] ++ ms2).
  rewrite !decode_members_app.
  rewrite decode_members_untouched by (eapply not_selects; eassumption).
  assert (json.findField fields key = Some i) as Hf.
  { simpl in Hk. rewrite Hindex in Hk.
    destruct (json.findField fields key) as [k|]; [|discriminate].
    apply Nat.eqb_eq in Hk. congruence. }
  set (decs := map (fun f => json.decode (snd f)) fields).
  assert (Forall2 (fun f x => has_type (snd f) x) fields
            (fst (json.decode_members fields decs ms1 vs))) as Ht.
  { apply decode_members_typed; [|exact (proj1 (has_type_struct _ _ _) Hv)].
    unfold decs. clear. induction fields as [|f fs IH]; simpl; constructor;
      [intros; apply decode_typed; assumption|exact IH]. }
  destruct (Forall2_lookup_l _ _ _ _ _ Ht Hfield) as (old & Hold & Hto).
  exists old. split; [exact Hto|].
  erewrite decode_members_one; [|exact Hf| |exact Hold].
  2:{ unfold decs.
      change (map (fun f => json.decode f.2) fields)
        with ((fun f => json.decode f.2) <$> fields).
      rewrite list_lookup_fmap, Hfield. reflexivity. }
  simpl. apply list_lookup_insert_eq. eapply lookup_lt_Some, Hold.
Qed.
End sent_field.

Lemma decode_elems_lookup (dec : json.value -> goval -> goval * option error)
    (h : goval -> Prop) z js :
  h z ->
  forall backing k j, Forall h backing -> js !! k = Some j ->
    exists old,
      h old
      /\ fst (fst (json.decode_elems dec z js backing)) !! k
         = Some (fst (dec j old)).
Proof.
  intros Hz. induction js as [|j0 js IH]; intros backing k j Hb Hk;
    [discriminate|].
  assert (h (hd z backing)) as Hh by (destruct Hb; assumption).
  assert (Forall h (tl backing)) as Ht by (destruct Hb; [constructor|assumption]).
  simpl. destruct k as [|k]; simpl in Hk.
  - injection Hk as ->. exists (hd z backing). split; [exact Hh|].
    destruct (dec j (hd z backing)) as [x e].
    destruct (json.decode_elems dec z js (tl backing)) as [[xs rest] e'].
    reflexivity.
  - destruct (IH (tl backing) k j Ht Hk) as (old & Ho & E).
    exists old. split; [exact Ho|].
    destruct (dec j0 (hd z backing)) as [x e].
    destruct (json.decode_elems dec z js (tl backing)) as [[xs rest] e'].
    exact E.
Qed.

(** Element [k] of a decoded slice holds what element [k] of the array
    decodes to. *)
Lemma sent_elem_decoded elem x k j v :
  has_type (TSlice elem) v ->
  sent_elems x !! k = Some j ->
  exists old,
    has_type elem old
    /\ slice_elems (fst (json.decode (TSlice elem) x v)) !! k
       = Some (fst (json.decode elem j old)).
Proof.
  intros Hv Hk. destruct x as [| | | |js|]; try discriminate. simpl in Hk.
  change (json.decode (TSlice elem) (json.Array js) v)
    with (json.decode_array (json.decode elem) (zero elem) js v).
  unfold json.decode_array. destruct js as [|j0 js]; [discriminate|].
  assert (Forall (has_type elem)
            (match v with VSlice (Some (els, spare)) => els ++ spare | _ => [] end))
    as Hb.
  { destruct v as [| | | | |[[els spare]|]|]; try constructor.
    destruct Hv. apply Forall_app. split; assumption. }
  destruct (decode_elems_lookup (json.decode elem) (has_type elem) (zero elem)
              (j0 :: js) (has_type_zero elem) _ k j Hb Hk) as (old & Ho & E).
  exists old. split; [exact Ho|].
  destruct (json.decode_elems _ _ _ _) as [[xs rest] e]. exact E.
Qed.

Lemma sent_field_decoded_in t name jsonkey ft i j x v :
  field_index name (struct_fields t) = Some i ->
  struct_fields t !! i = Some (name, jsonkey, ft) ->
  has_type t v ->
  sent t name j = Some x ->
  exists old,
    has_type ft old
    /\ get t name (fst (json.decode t j v)) = Some (fst (json.decode ft x old)).
Proof.
  destruct t as [| | | | | |n fields]; try discriminate. simpl struct_fields.
  intros Hi Hf. exact (sent_field_decoded n fields name jsonkey ft i Hi Hf j x v).
Qed.

(** A message the document sends is decoded at its place in the envelope,
    and a string it sends as its type is the [Type] the message has. *)
Lemma sent_message_decoded j v a b c m :
  has_type WebhookRequest v ->
  sent_message j a b c = Some m ->
  exists dm,
    message_at (fst (json.decode WebhookRequest j v)) a b c = Some dm
    /\ forall t, sent WebhookMessage "Type" m = Some (json.String_ t) ->
                 get WebhookMessage "Type" dm = Some (VString t).
Proof.
  intros Hv. unfold sent_message.
  destruct (sent WebhookRequest "Entry" j) as [es|] eqn:E1; [|discriminate].
  cbn [mbind option_bind].
  destruct (sent_elems es !! a) as [e|] eqn:E2; [|discriminate].
  cbn [mbind option_bind].
  destruct (sent WebhookEntry "Changes" e) as [cs|] eqn:E3; [|discriminate].
  cbn [mbind option_bind].
  destruct (sent_elems cs !! b) as [ch|] eqn:E4; [|discriminate].
  cbn [mbind option_bind].
  destruct (sent WebhookChange "Value" ch) as [val|] eqn:E5; [|discriminate].
  cbn [mbind option_bind].
  destruct (sent WebhookValue "Messages" val) as [msgs|] eqn:E6; [|discriminate].
  cbn [mbind option_bind]. intros E7.
  destruct (sent_field_decoded_in WebhookRequest "Entry" "entry"
              (TSlice WebhookEntry) 1%nat j es v eq_refl eq_refl Hv E1)
    as (o1 & T1 & G1).
  destruct (sent_elem_decoded WebhookEntry es a e o1 T1 E2) as (o2 & T2 & G2).
  destruct (sent_field_decoded_in WebhookEntry "Changes" "changes"
              (TSlice WebhookChange) 1%nat e cs o2 eq_refl eq_refl T2 E3)
    as (o3 & T3 & G3).
  destruct (sent_elem_decoded WebhookChange cs b ch o3 T3 E4) as (o4 & T4 & G4).
  destruct (sent_field_decoded_in WebhookChange "Value" "value"
              WebhookValue 0%nat ch val o4 eq_refl eq_refl T4 E5)
    as (o5 & T5 & G5).
  destruct (sent_field_decoded_in WebhookValue "Messages" "messages"
              (TSlice WebhookMessage) 3%nat val msgs o5 eq_refl eq_refl T5 E6)
    as (o6 & T6 & G6).
  destruct (sent_elem_decoded WebhookMessage msgs c m o6 T6 E7) as (o7 & T7 & G7).
  exists (fst (json.decode WebhookMessage m o7)). split.
  - unfold message_at.
    rewrite G1. cbn [mbind option_bind]. rewrite G2. cbn [mbind option_bind].
    rewrite G3. cbn [mbind option_bind]. rewrite G4. cbn [mbind option_bind].
    rewrite G5. cbn [mbind option_bind]. rewrite G6. cbn [mbind option_bind].
    exact G7.
  - intros t Et.
    destruct (sent_field_decoded_in WebhookMessage "Type" "type"
                MessageType 3%nat m (json.String_ t) o7 eq_refl eq_refl T7 Et)
      as (o8 & T8 & G8).
    rewrite G8. reflexivity.
Qed.

Lemma conforms_type_member ms1 key t ms2 :
  selects WebhookMessage "Type" key = true ->
  conforms WebhookMessage (json.Object (ms1 ++ (key, json.String_ t) :: ms2))
  = conforms WebhookMessage (json.Object (ms1 ++ ms2)).
Proof.
  intros Hs. unfold WebhookMessage in *. rewrite !conforms_struct, !forallb_app.
  cbn [forallb fst snd]. cbn [selects] in Hs.
  destruct (json.findField _ key) as [i|]; [|discriminate].
  replace (field_index "Type" _) with (Some 3%nat) in Hs by reflexivity.
  apply Nat.eqb_eq in Hs. subst i.
  cbn [map lookup list_lookup snd fst]. cbn [conforms MessageType].
  reflexivity.
Qed.

Lemma Unmarshal_conforms t body j v :
  json.parse body = Some j -> conforms t j = true ->
  json.Unmarshal t body v = (fst (json.decode t j v), None).
Proof.
  intros Hp Hc. unfold json.Unmarshal. rewrite Hp.
  pose proof (decode_conforms t j v Hc) as H.
  destruct (json.decode t j v) as [v' e]. simpl in H. subst e. reflexivity.
Qed.

Lemma elem_of_fields_of t name vs v x :
  v ∈ vs -> get t name v = Some x -> x ∈ fields_of t name vs.
Proof.
  intros Hv Hg. unfold fields_of. apply list_elem_of_omap. eauto.
Qed.

Lemma elem_of_elems (vs : list goval) v k x :
  v ∈ vs -> slice_elems v !! k = Some x -> x ∈ vs ≫= slice_elems.
Proof.
  intros Hv Hk. apply list_elem_of_bind. exists v.
  split; [eapply list_elem_of_lookup_2, Hk|exact Hv].
Qed.

(** The message at a place of the envelope is one of its messages. *)
Lemma message_at_all_messages request a b c dm :
  message_at request a b c = Some dm -> dm ∈ all_messages request.
Proof.
  unfold message_at, all_messages.
  destruct (get WebhookRequest "Entry" request) as [es|] eqn:G1; [|discriminate].
  cbn [mbind option_bind].
  destruct (slice_elems es !! a) as [e|] eqn:G2; [|discriminate].
  cbn [mbind option_bind].
  destruct (get WebhookEntry "Changes" e) as [cs|] eqn:G3; [|discriminate].
  cbn [mbind option_bind].
  destruct (slice_elems cs !! b) as [ch|] eqn:G4; [|discriminate].
  cbn [mbind option_bind].
  destruct (get WebhookChange "Value" ch) as [val|] eqn:G5; [|discriminate].
  cbn [mbind option_bind].
  destruct (get WebhookValue "Messages" val) as [msgs|] eqn:G6; [|discriminate].
  cbn [mbind option_bind]. intros G7. cbv zeta.
  eapply elem_of_elems; [|exact G7].
  eapply elem_of_fields_of; [|exact G6].
  eapply elem_of_fields_of; [|exact G5].
  eapply elem_of_elems; [|exact G4].
  eapply elem_of_fields_of; [|exact G3].
  eapply elem_of_elems; [|exact G2].
  eapply elem_of_fields_of; [|exact G1].
  apply list_elem_of_singleton. reflexivity.
Qed.

(** C8, as the code has it. A body that is valid JSON and has the shape
    of the envelope decodes without an error, and every message it sends is
    in the envelope, at the place it was sent at (entry [a], change [b],
    message [c]; for a key sent twice the last member counts, as the
    decoder has it), with the string it sent as its type as its [Type],
    whatever that string is and wherever in the message it stands: the
    string is kept, not turned into one of the markers. The string a
    message has as its type plays no part in the shape either, so an
    unrecognized one does not make decoding fail. *)
Theorem unrecognized_type_is_kept :
  (forall body j,
     json.parse body = Some j -> conforms WebhookRequest j = true ->
     exists request,
       json.Unmarshal WebhookRequest body (zero WebhookRequest) = (request, None)
       /\ forall a b c m t,
            sent_message j a b c = Some m ->
            sent WebhookMessage "Type" m = Some (json.String_ t) ->
            exists dm,
              message_at request a b c = Some dm
              /\ dm ∈ all_messages request
              /\ get WebhookMessage "Type" dm = Some (VString t))
  /\ (forall ms1 key t ms2,
        selects WebhookMessage "Type" key = true ->
        conforms WebhookMessage
          (json.Object (ms1 ++ (key, json.String_ t) :: ms2))
        = conforms WebhookMessage (json.Object (ms1 ++ ms2))).
Proof.
  split.
  - intros body j Hp Hc.
    exists (fst (json.decode WebhookRequest j (zero WebhookRequest))).
    split; [apply Unmarshal_conforms; assumption|].
    intros a b c m t Hm Ht.
    destruct (sent_message_decoded j (zero WebhookRequest) a b c m
                (has_type_zero WebhookRequest) Hm) as (dm & Hat & Hty).
    exists dm. split; [exact Hat|]. split.
    + eapply message_at_all_messages, Hat.
    + apply Hty, Ht.
  - apply conforms_type_member.
Qed.

Lemma unrecognized_type_is_kept_example :
  exists request dm,
    json.Unmarshal WebhookRequest poll_type_body (zero WebhookRequest)
    = (request, None)
    /\ message_at request 0 0 0 = Some dm
    /\ dm ∈ all_messages request
    /\ get WebhookMessage "Type" dm = Some (VString "poll").
Proof.
  destruct (json.parse poll_type_body) as [j|] eqn:Hp;
    [|vm_compute in Hp; discriminate Hp].
  destruct (proj1 unrecognized_type_is_kept poll_type_body j Hp)
    as (request & Hu & Hm).
  { vm_compute in Hp. injection Hp as <-. vm_compute. reflexivity. }
  destruct (sent_message j 0 0 0) as [m|] eqn:Es;
    [|vm_compute in Hp; injection Hp as <-; vm_compute in Es; discriminate Es].
  destruct (Hm 0%nat 0%nat 0%nat m "poll" Es) as (dm & Hat & Hin & Hty).
  { vm_compute in Hp. injection Hp as <-. vm_compute in Es.
    injection Es as <-. vm_compute. reflexivity. }
  exists request, dm. auto.
Defined.

(** The message of [future_type_body] decodes with the type it was sent
    with, which is neither "unknown" nor "unsupported". *)
Lemma unrecognized_type_is_not_marked :
  (snd (json.Unmarshal WebhookRequest future_type_body (zero WebhookRequest)),
   get WebhookMessage "Type"
     <$> all_messages
           (fst (json.Unmarshal WebhookRequest future_type_body
                   (zero WebhookRequest))))
  = (None, [Some (VString "some_future_type")])
  /\ "some_future_type" <> MessageTypeUnknown
  /\ "some_future_type" <> MessageTypeUnsupported.
Proof.
  split; [vm_compute; reflexivity|]. split; discriminate.
Qed.

Lemma verifySignature_round_trip_example :
  verifySignature example_webhook
    (post {[ "X-Hub-Signature-256" := [hi_sha256] ]} (bytes_of_string "hi"))
    (bytes_of_string "hi") = true
  /\ forall B' : list byte,
       verifySignature example_webhook
         (post {[ "X-Hub-Signature-256" := [hi_sha256] ]} (bytes_of_string "hi"))
         B' = false
       <-> hmac.Sum_ sha256.New (bytes_of_string "abc") B'
           <> hmac.Sum_ sha256.New (bytes_of_string "abc") (bytes_of_string "hi").
Proof.
  apply (verifySignature_round_trip example_webhook
           (post {[ "X-Hub-Signature-256" := [hi_sha256] ]} (bytes_of_string "hi"))
           (bytes_of_string "hi")).
  vm_compute. reflexivity.
Defined.

Lemma verifySignature_precedence_example :
  verifySignature example_webhook
    (post {[ "X-Hub-Signature-256" := [hi_sha256];
             "X-Hub-Signature" := ["sha1=00"] ]} (bytes_of_string "hi"))
    (bytes_of_string "hi") = true
  /\ verifySignature example_webhook
       (post {[ "X-Hub-Signature-256" := ["sha256=00"];
                "X-Hub-Signature" := [hi_sha1] ]} (bytes_of_string "hi"))
       (bytes_of_string "hi") = false.
Proof.
  split.
  - destruct (verifySignature_precedence example_webhook
                (post {[ "X-Hub-Signature-256" := [hi_sha256];
                         "X-Hub-Signature" := ["sha1=00"] ]}
                      (bytes_of_string "hi"))
                (bytes_of_string "hi")) as [H _].
    + vm_compute. intros E. discriminate E.
    + vm_compute. intros E. discriminate E.
    + apply H. vm_compute. reflexivity.
  - destruct (verifySignature_precedence example_webhook
                (post {[ "X-Hub-Signature-256" := ["sha256=00"];
                         "X-Hub-Signature" := [hi_sha1] ]}
                      (bytes_of_string "hi"))
                (bytes_of_string "hi")) as [_ H].
    + vm_compute. intros E. discriminate E.
    + vm_compute. intros E. discriminate E.
    + apply H. vm_compute. intros E. discriminate E.
Defined.

Lemma verifySignature_fails_closed_example :
  verifySignature example_webhook (post ∅ (bytes_of_string "hi"))
    (bytes_of_string "hi") = false
  /\ verifySignature example_webhook
       (post {[ "X-Hub-Signature-256" :=
                  ["SHA256=330d91db907ac17a57142096e5458df0db9b4aec54916ed18160aa7859536daa"] ]}
             (bytes_of_string "hi"))
       (bytes_of_string "hi") = false
  /\ verifySignature example_webhook
       (post {[ "X-Hub-Signature" :=
                  ["755f776df0652923d90a05a1e1c7cbcf98ce05d6"] ]}
             (bytes_of_string "hi"))
       (bytes_of_string "hi") = false.
Proof.
  split; [|split].
  - apply verifySignature_fails_closed. left. split; vm_compute; reflexivity.
  - apply verifySignature_fails_closed. right. left.
    split; [vm_compute; intros E; discriminate E|vm_compute; reflexivity].
  - apply verifySignature_fails_closed. right. right.
    split; [vm_compute; reflexivity|].
    split; [vm_compute; intros E; discriminate E|vm_compute; reflexivity].
Defined.

Lemma challenge_response_example :
  (exists s,
     ServeHTTP 0%nat example_store 1%positive (subscribe "token" "") start = Done tt s
     /\ http.status (resp s) = Some 200 /\ http.written (resp s) = [])
  /\ (exists s,
        ServeHTTP 0%nat example_store 1%positive (subscribe "token" "1158201444") start
        = Done tt s
        /\ http.status (resp s) = Some 200
        /\ http.written (resp s) = bytes_of_string "1158201444")
  /\ (exists s,
        ServeHTTP 0%nat example_store 1%positive (subscribe "other" "1158201444") start
        = Done tt s
        /\ http.status (resp s) = Some 403 /\ http.written (resp s) = []).
Proof.
  split; [|split].
  - destruct (challenge_response example_store 1%positive example_webhook
                (subscribe "token" "") 0%nat eq_refl eq_refl) as (s & Hs & Hyes & _).
    exists s. split; [exact Hs|]. apply Hyes. split; vm_compute; reflexivity.
  - destruct (challenge_response example_store 1%positive example_webhook
                (subscribe "token" "1158201444") 0%nat eq_refl eq_refl)
      as (s & Hs & Hyes & _).
    exists s. split; [exact Hs|]. apply Hyes. split; vm_compute; reflexivity.
  - destruct (challenge_response example_store 1%positive example_webhook
                (subscribe "other" "1158201444") 0%nat eq_refl eq_refl)
      as (s & Hs & _ & Hno).
    exists s. split; [exact Hs|]. apply Hno. intros [_ H]. vm_compute in H.
    discriminate.
Defined.

(** A body that is not JSON, with a signature that is not its own. *)
Lemma signature_failure_precedes_decoding_example :
  exists tail,
    calls (final (handleWebhookPOST 1%nat example_store 1%positive
                    (post {[ "X-Hub-Signature-256" := [hi_sha256] ]}
                          (bytes_of_string "{"))
                    start))
    = [CallReadAll; CallVerifySignature (bytes_of_string "{");
       CallHandleWebhookErr None (errors.New "invalid signature")] ++ tail
    /\ after_hook "Invalid signature" http.StatusForbidden tail
    /\ forall body,
         CallUnmarshal body
         ∉ calls (final (handleWebhookPOST 1%nat example_store 1%positive
                           (post {[ "X-Hub-Signature-256" := [hi_sha256] ]}
                                 (bytes_of_string "{"))
                           start)).
Proof.
  apply (signature_failure_precedes_decoding example_store 1%positive example_webhook
           (post {[ "X-Hub-Signature-256" := [hi_sha256] ]} (bytes_of_string "{"))
           1%nat).
  - reflexivity.
  - reflexivity.
  - vm_compute. reflexivity.
Defined.

Lemma one_handler_call_or_one_hook_call_example :
  (exists s,
     handleWebhookPOST 1%nat example_store 1%positive
       (post ∅ (bytes_of_string "{}")) start
     = Done tt s
     /\ handler_calls (calls s) = []
     /\ hook_calls (calls s) = [(None, errors.New "invalid signature")]
     /\ writes (calls s) = [CallError "Invalid signature" 403]
     /\ http.status (resp s) = Some 403)
  /\ (exists s,
        handleWebhookPOST 1%nat example_store 1%positive
          (post {[ "X-Hub-Signature-256" := [hi_sha256] ]} (bytes_of_string "hi"))
          start
        = Done tt s
        /\ handler_calls (calls s) = []
        /\ length (hook_calls (calls s)) = 1%nat
        /\ writes (calls s) = []
        /\ http.status (resp s) = Some 500).
Proof.
  split.
  - destruct (one_handler_call_or_one_hook_call example_store 1%positive
                example_webhook example_handler example_hook
                (post ∅ (bytes_of_string "{}")) 0%nat
                eq_refl eq_refl eq_refl) as (s & Hs & Ho).
    exists s. split; [exact Hs|].
    replace (outcome example_webhook (post ∅ (bytes_of_string "{}")))
      with (inl (B := goval) SignatureFailure) in Ho by (vm_compute; reflexivity).
    cbv beta iota zeta delta [reported default_response fst snd example_hook
                              errors.New] in Ho.
    destruct Ho as (H1 & H2 & H3 & H4).
    rewrite H1, H2, H3, H4. repeat split.
  - destruct (one_handler_call_or_one_hook_call example_store 1%positive
                example_webhook example_handler example_hook
                (post {[ "X-Hub-Signature-256" := [hi_sha256] ]}
                      (bytes_of_string "hi")) 0%nat
                eq_refl eq_refl eq_refl) as (s & Hs & Ho).
    exists s. split; [exact Hs|].
    destruct (outcome example_webhook
                (post {[ "X-Hub-Signature-256" := [hi_sha256] ]}
                      (bytes_of_string "hi"))) as [fl|request] eqn:E;
      [|vm_compute in E; discriminate E].
    assert (exists request err, fl = DecodeFailure request err) as (rq & err & ->).
    { vm_compute in E. injection E as <-. eexists _, _. reflexivity. }
    cbv beta iota zeta delta [reported default_response fst snd example_hook
                              fmt.Errorf_w] in Ho.
    destruct Ho as (H1 & H2 & H3 & H4).
    rewrite H1, H2, H3, H4. repeat split.
Defined.


Lemma verifySignature_empty_256_falls_back_example :
  verifySignature example_webhook
    (post {[ "X-Hub-Signature-256" := [""]; "X-Hub-Signature" := [hi_sha1] ]}
          (bytes_of_string "hi"))
    (bytes_of_string "hi") = true.
Proof.
  destruct (verifySignature_empty_256_falls_back example_webhook
              (post {[ "X-Hub-Signature-256" := [""];
                       "X-Hub-Signature" := [hi_sha1] ]} (bytes_of_string "hi"))
              (bytes_of_string "hi") []) as [_ H].
  - vm_compute. reflexivity.
  - apply H. vm_compute. reflexivity.
Defined.

Section default_wiring.
#[local] Arguments HandleWebhookErr : simpl never.
#[local] Arguments json.Unmarshal : simpl never.
#[local] Arguments zero : simpl never.
#[local] Arguments verifySignature : simpl never.

Lemma handleWebhookPOST_self σ wh w r fuel fl :
  σ !! wh = Some w -> ErrHandler w = ErrHandler_Webhook wh ->
  outcome w r = inl fl ->
  exists s,
    handleWebhookPOST fuel σ wh r start = OutOfFuel s
    /\ resp s = http.NewRecorder
    /\ writes (calls s) = []
    /\ handler_calls (calls s) = []
    /\ hook_calls (calls s) = [reported fl].
Proof.
  intros Hw He Ho. unfold handleWebhookPOST, outcome, io.ReadAll in *.
  destruct (io.err (http.Body r)) as [e|].
  - injection Ho as <-. unfold defer, mbind, M_bind, log, start. simpl.
    rewrite (HandleWebhookErr_self σ wh w Hw He). simpl.
    eexists. split; [reflexivity|]. repeat split.
  - unfold defer, mbind, M_bind, log, deref, start. simpl. rewrite Hw.
    destruct (verifySignature w r (io.data (http.Body r))); simpl.
    + destruct (json.Unmarshal WebhookRequest (io.data (http.Body r))
                  (zero WebhookRequest)) as [request [e|]]; [|discriminate].
      injection Ho as <-.
      rewrite (HandleWebhookErr_self σ wh w Hw He). simpl.
      eexists. split; [reflexivity|]. repeat split.
    + injection Ho as <-.
      rewrite (HandleWebhookErr_self σ wh w Hw He). simpl.
      eexists. split; [reflexivity|]. repeat split.
Qed.
End default_wiring.

(** C7, on a webhook as [NewWebhook] makes it. A POST that fails (the body
    is not read, the signature does not verify, or the body does not
    decode) calls [HandleWebhookErr] once, and that call does not return:
    whatever the fuel, the run is still in it, the default response of the
    failure is not written and the response writer is untouched. *)
Theorem handleWebhookPOST_NewWebhook_failure_never_answers
    webhookSecret appSecret handler σ r fuel fl :
  outcome {| WebhookSecret := webhookSecret; AppSecret := appSecret;
             Handler := handler;
             ErrHandler :=
               ErrHandler_Webhook
                 (NewWebhook webhookSecret appSecret handler σ).1 |} r
  = inl fl ->
  exists s,
    handleWebhookPOST fuel
      (NewWebhook webhookSecret appSecret handler σ).2
      (NewWebhook webhookSecret appSecret handler σ).1 r start
    = OutOfFuel s
    /\ resp s = http.NewRecorder
    /\ writes (calls s) = []
    /\ handler_calls (calls s) = []
    /\ hook_calls (calls s) = [reported fl].
Proof.
  intros Ho. eapply handleWebhookPOST_self.
  - apply NewWebhook_lookup.
  - reflexivity.
  - exact Ho.
Qed.

Lemma handleWebhookPOST_NewWebhook_failure_never_answers_example :
  exists s,
    handleWebhookPOST 1000
      (NewWebhook "token" "abc" (Some example_handler) ∅).2
      (NewWebhook "token" "abc" (Some example_handler) ∅).1
      (post ∅ (bytes_of_string "{}")) start
    = OutOfFuel s
    /\ resp s = http.NewRecorder
    /\ writes (calls s) = []
    /\ handler_calls (calls s) = []
    /\ hook_calls (calls s) = [reported SignatureFailure].
Proof.
  apply (handleWebhookPOST_NewWebhook_failure_never_answers
           "token" "abc" (Some example_handler) ∅
           (post ∅ (bytes_of_string "{}")) 1000 SignatureFailure).
  vm_compute. reflexivity.
Defined.

(** * More on the signature verifier *)

(** [verifySignature] accepts a request exactly when the header it selects
    holds the one signature of the body: the SHA-256 one under
    "sha256=" when [X-Hub-Signature-256] has a value, else the SHA-1 one
    under "sha1=" in [X-Hub-Signature]. *)
Theorem verifySignature_accepts_exactly wh r body :
  verifySignature wh r body = true
  <-> (http.Get (http.Header r) "X-Hub-Signature-256"
         = signature_of "sha256=" sha256.New (AppSecret wh) body)
      \/ (http.Get (http.Header r) "X-Hub-Signature-256" = ""
          /\ http.Get (http.Header r) "X-Hub-Signature"
             = signature_of "sha1=" sha1.New (AppSecret wh) body).
Proof.
  destruct (String.eqb_spec (http.Get (http.Header r) "X-Hub-Signature-256") "")
    as [E|N].
  - destruct (String.eqb_spec (http.Get (http.Header r) "X-Hub-Signature") "")
      as [E1|N1].
    + rewrite verifySignature_none by assumption. split; [discriminate|].
      intros [H|[_ H]].
      * rewrite E in H. discriminate H.
      * rewrite E1 in H. discriminate H.
    + rewrite verifySignature_1 by assumption. rewrite verifySignatureImpl_spec.
      split.
      * intros H. right. split; assumption.
      * intros [H|[_ H]]; [|exact H]. rewrite E in H. discriminate H.
  - rewrite verifySignature_256 by assumption. rewrite verifySignatureImpl_spec.
    split.
    + intros H. left. exact H.
    + intros [H|[H _]]; [exact H|contradiction].
Qed.

Lemma hex_Encode_length src : length (hex.Encode src) = (2 * length src)%nat.
Proof.
  unfold hex.Encode. induction src as [|b src IH]; simpl; [reflexivity|].
  rewrite IH. lia.
Qed.

Lemma string_of_bytes_length b : String.length (string_of_bytes b) = length b.
Proof.
  unfold string_of_bytes, string_of_list_byte.
  induction b as [|c b IH]; simpl; [reflexivity|]. rewrite IH. reflexivity.
Qed.

Lemma append_length a b :
  String.length (a +:+ b) = (String.length a + String.length b)%nat.
Proof. induction a; simpl; [reflexivity|]. rewrite IHa. reflexivity. Qed.

Lemma Sum1_length data : length (sha1.Sum_ data) = 20%nat.
Proof.
  unfold sha1.Sum_, sha1.checkSum. rewrite !length_app. reflexivity.
Qed.

Lemma signature_of_length secret body :
  String.length (signature_of "sha256=" sha256.New secret body) = 71%nat
  /\ String.length (signature_of "sha1=" sha1.New secret body) = 45%nat.
Proof.
  unfold signature_of, hex.EncodeToString.
  rewrite !append_length, !string_of_bytes_length, !hex_Encode_length.
  unfold hmac.Sum_.
  change (Sum sha256.New) with sha256.Sum256. change (Sum sha1.New) with sha1.Sum_.
  rewrite Sum256_length, Sum1_length. split; reflexivity.
Qed.

(** A request that verifies carries a signature of 71 bytes in
    [X-Hub-Signature-256], or no value there and one of 45 bytes in
    [X-Hub-Signature]: a value of any other length is rejected, whatever
    the body and the secret are. *)
Theorem verified_signature_length wh r body :
  verifySignature wh r body = true ->
  String.length (http.Get (http.Header r) "X-Hub-Signature-256") = 71%nat
  \/ (http.Get (http.Header r) "X-Hub-Signature-256" = ""
      /\ String.length (http.Get (http.Header r) "X-Hub-Signature") = 45%nat).
Proof.
  intros H.
  destruct (String.eqb_spec (http.Get (http.Header r) "X-Hub-Signature-256") "")
    as [E|N].
  - right. split; [exact E|].
    destruct (String.eqb_spec (http.Get (http.Header r) "X-Hub-Signature") "")
      as [E1|N1].
    + rewrite verifySignature_none in H by assumption. discriminate H.
    + rewrite verifySignature_1 in H by assumption.
      apply verifySignatureImpl_spec in H. rewrite H.
      apply (signature_of_length (AppSecret wh) body).
  - left. rewrite verifySignature_256 in H by assumption.
    apply verifySignatureImpl_spec in H. rewrite H.
    apply (signature_of_length (AppSecret wh) body).
Qed.

Lemma verified_signature_length_example :
  String.length
    (http.Get (http.Header (post {[ "X-Hub-Signature-256" := [hi_sha256] ]}
                                 (bytes_of_string "hi")))
              "X-Hub-Signature-256") = 71%nat
  \/ (http.Get (http.Header (post {[ "X-Hub-Signature-256" := [hi_sha256] ]}
                                  (bytes_of_string "hi")))
               "X-Hub-Signature-256" = ""
      /\ String.length
           (http.Get (http.Header (post {[ "X-Hub-Signature-256" := [hi_sha256] ]}
                                        (bytes_of_string "hi")))
                     "X-Hub-Signature") = 45%nat).
Proof.
  apply (verified_signature_length example_webhook
           (post {[ "X-Hub-Signature-256" := [hi_sha256] ]} (bytes_of_string "hi"))
           (bytes_of_string "hi")).
  vm_compute. reflexivity.
Defined.

(** * More on the dispatcher *)

(** A request whose method is not POST never reaches the body, the
    verifier, the decoder, the handler or the hook: [ServeHTTP] at most
    writes a status and a body; and when the method is not GET either it
    answers 405 with an empty body, whatever the webhook is. *)
Theorem ServeHTTP_only_POST_runs_the_pipeline σ wh r fuel :
  http.Method r <> http.MethodPost ->
  List.filter is_pipeline_call (calls (final (ServeHTTP fuel σ wh r start))) = []
  /\ (http.Method r <> http.MethodGet ->
      exists s,
        ServeHTTP fuel σ wh r start = Done tt s
        /\ calls s = [CallWriteHeader http.StatusMethodNotAllowed]
        /\ http.status (resp s) = Some 405
        /\ http.written (resp s) = []).
Proof.
  intros Hp. unfold ServeHTTP.
  destruct (String.eqb_spec (http.Method r) http.MethodGet) as [Eg|Ng].
  - split; [|contradiction].
    unfold mbind, M_bind, deref. destruct (σ !! wh) as [w|]; [|reflexivity].
    unfold verifyChallenge.
    destruct (String.eqb _ "subscribe" && String.eqb _ (WebhookSecret w));
      reflexivity.
  - destruct (String.eqb_spec (http.Method r) http.MethodPost) as [Ep|_];
      [contradiction|].
    split; [reflexivity|]. intros _. eexists. split; [reflexivity|].
    repeat split.
Qed.

Lemma ServeHTTP_only_POST_runs_the_pipeline_example :
  List.filter is_pipeline_call
    (calls (final (ServeHTTP 1 example_store 1%positive
                     {| http.Method := "DELETE"; http.Query := ∅;
                        http.Header := ∅;
                        http.Body := {| io.data := []; io.err := None |};
                        http.Context := 0 |} start))) = []
  /\ exists s,
       ServeHTTP 1 example_store 1%positive
         {| http.Method := "DELETE"; http.Query := ∅; http.Header := ∅;
            http.Body := {| io.data := []; io.err := None |};
            http.Context := 0 |} start = Done tt s
       /\ calls s = [CallWriteHeader http.StatusMethodNotAllowed]
       /\ http.status (resp s) = Some 405
       /\ http.written (resp s) = [].
Proof.
  destruct (ServeHTTP_only_POST_runs_the_pipeline example_store 1%positive
              {| http.Method := "DELETE"; http.Query := ∅; http.Header := ∅;
                 http.Body := {| io.data := []; io.err := None |};
                 http.Context := 0 |} 1%nat) as [H1 H2].
  - intros E. discriminate E.
  - split; [exact H1|]. apply H2. intros E. discriminate E.
Defined.

Section pipeline.
#[local] Arguments HandleWebhookErr : simpl never.
#[local] Arguments json.Unmarshal : simpl never.
#[local] Arguments zero : simpl never.
#[local] Arguments verifySignature : simpl never.
#[local] Arguments json.decode : simpl never.

Lemma hook_then_default_closes σ fuel wh ctx req err text code s :
  CallClose ∉ calls s ->
  match defer (log CallClose)
          (handled ← HandleWebhookErr fuel σ wh ctx req err;
           if negb handled
           then log (CallError text code);; on_writer (http.Error text code)
           else mret tt) s with
  | OutOfFuel _ => True
  | Done _ s' | Panicked s' =>
      exists tr, calls s' = tr ++ [CallClose] /\ CallClose ∉ tr
  end.
Proof.
  intros Hs.
  pose proof (HandleWebhookErr_calls σ fuel wh ctx req err s) as H.
  unfold defer, mbind, M_bind.
  destruct (HandleWebhookErr fuel σ wh ctx req err s) as [[] s'|s'|s'];
    simpl in *; try exact I.
  - exists (calls s'). split; [reflexivity|]. rewrite H. exact Hs.
  - exists (calls s' ++ [CallError text code]). split; [reflexivity|].
    rewrite H. intros Hin. apply elem_of_app in Hin as [Hin|Hin];
      [contradiction|].
    apply list_elem_of_singleton in Hin. discriminate Hin.
  - exists (calls s'). split; [reflexivity|]. rewrite H. exact Hs.
Qed.

(** [handleWebhookPOST] closes the body: whenever it returns or panics,
    [Close] has been called once, as the last call, whatever the webhook,
    its hook and the request are. *)
Theorem handleWebhookPOST_closes_the_body σ wh r fuel :
  match handleWebhookPOST fuel σ wh r start with
  | OutOfFuel _ => True
  | Done _ s | Panicked s =>
      exists tr, calls s = tr ++ [CallClose] /\ CallClose ∉ tr
  end.
Proof.
  assert (forall l : list call, Forall (fun c => c <> CallClose) l -> CallClose ∉ l)
    as Hnot.
  { intros l F Hin. rewrite Forall_forall in F. exact (F _ Hin eq_refl). }
  unfold handleWebhookPOST, io.ReadAll.
  destruct (io.err (http.Body r)) as [e|].
  - apply (hook_then_default_closes σ fuel wh (http.Context r) None
             (fmt.Errorf_w "reading body" e) "Failed to read request body"
             http.StatusBadRequest
             {| resp := http.NewRecorder;
                calls := [CallReadAll;
                          CallHandleWebhookErr None
                            (fmt.Errorf_w "reading body" e)] |}).
    apply Hnot. repeat constructor; discriminate.
  - destruct (σ !! wh) as [w|] eqn:Hw.
    2:{ unfold defer, mbind, M_bind, log, deref, start. simpl. rewrite Hw. simpl.
        exists [CallReadAll]. split; [reflexivity|].
        apply Hnot. repeat constructor; discriminate. }
    destruct (verifySignature w r (io.data (http.Body r))) eqn:Hv.
    + destruct (json.Unmarshal WebhookRequest (io.data (http.Body r))
                  (zero WebhookRequest)) as [request [e|]] eqn:Hu.
      * pose proof (hook_then_default_closes σ fuel wh (http.Context r)
             (Some request) (fmt.Errorf_w "unmarshalling request body" e)
             "Failed to parse request body" http.StatusBadRequest
             {| resp := http.NewRecorder;
                calls := [CallReadAll;
                          CallVerifySignature (io.data (http.Body r));
                          CallUnmarshal (io.data (http.Body r));
                          CallHandleWebhookErr (Some request)
                            (fmt.Errorf_w "unmarshalling request body" e)] |})
          as K.
        unfold defer, mbind, M_bind, log, deref, start in *. simpl in *.
        rewrite Hw, Hv. simpl. apply K.
        apply Hnot. repeat constructor; discriminate.
      * unfold defer, mbind, M_bind, log, deref, start, panic, on_writer.
        simpl. rewrite Hw, Hv. simpl.
        destruct (Handler w) as [h|]; simpl.
        -- exists [CallReadAll; CallVerifySignature (io.data (http.Body r));
                   CallUnmarshal (io.data (http.Body r));
                   CallHandleWebhook request].
           split; [reflexivity|].
           apply Hnot. repeat constructor; discriminate.
        -- exists [CallReadAll; CallVerifySignature (io.data (http.Body r));
                   CallUnmarshal (io.data (http.Body r))].
           split; [reflexivity|].
           apply Hnot. repeat constructor; discriminate.
    + pose proof (hook_then_default_closes σ fuel wh (http.Context r)
             None (errors.New "invalid signature")
             "Invalid signature" http.StatusForbidden
             {| resp := http.NewRecorder;
                calls := [CallReadAll;
                          CallVerifySignature (io.data (http.Body r));
                          CallHandleWebhookErr None
                            (errors.New "invalid signature")] |}) as K.
      unfold defer, mbind, M_bind, log, deref, start in *. simpl in *.
      rewrite Hw, Hv. simpl. apply K.
      apply Hnot. repeat constructor; discriminate.
Qed.

(** A body that is read, carries its SHA-256 signature, is valid JSON and
    has the shape of the envelope goes to the handler, whatever the error
    handler is (the one [NewWebhook] wires included) and whatever the fuel:
    the handler is called once with the decoded envelope, the webhook writes
    nothing itself, and the response is what the handler made of it. *)
Theorem signed_conforming_body_reaches_the_handler σ wh w h r j fuel :
  σ !! wh = Some w ->
  Handler w = Some h ->
  io.err (http.Body r) = None ->
  http.Get (http.Header r) "X-Hub-Signature-256"
    = signature_of "sha256=" sha256.New (AppSecret w) (io.data (http.Body r)) ->
  json.parse (io.data (http.Body r)) = Some j ->
  conforms WebhookRequest j = true ->
  handleWebhookPOST fuel σ wh r start
  = Done tt
      {| resp := h (http.Context r) http.NewRecorder
                   (fst (json.decode WebhookRequest j (zero WebhookRequest)));
         calls := [CallReadAll; CallVerifySignature (io.data (http.Body r));
                   CallUnmarshal (io.data (http.Body r));
                   CallHandleWebhook
                     (fst (json.decode WebhookRequest j (zero WebhookRequest)));
                   CallClose] |}.
Proof.
  intros Hw Hh He Hs Hp Hc. unfold handleWebhookPOST, io.ReadAll. rewrite He.
  unfold defer, mbind, M_bind, log, deref, start, on_writer. simpl. rewrite Hw.
  assert (verifySignature w r (io.data (http.Body r)) = true) as ->.
  { rewrite verifySignature_256 by (rewrite Hs; discriminate).
    apply verifySignatureImpl_spec. exact Hs. }
  simpl.
  rewrite (Unmarshal_conforms WebhookRequest _ j (zero WebhookRequest) Hp Hc).
  simpl. rewrite Hh. reflexivity.
Qed.

(** With a nil handler a body that is read, verifies and decodes makes
    [handleWebhookPOST] panic, once the body is decoded and before anything
    is written; the body is closed on the way out. *)
Theorem nil_handler_panics σ wh w r request fuel :
  σ !! wh = Some w ->
  Handler w = None ->
  io.err (http.Body r) = None ->
  verifySignature w r (io.data (http.Body r)) = true ->
  json.Unmarshal WebhookRequest (io.data (http.Body r)) (zero WebhookRequest)
    = (request, None) ->
  handleWebhookPOST fuel σ wh r start
  = Panicked
      {| resp := http.NewRecorder;
         calls := [CallReadAll; CallVerifySignature (io.data (http.Body r));
                   CallUnmarshal (io.data (http.Body r)); CallClose] |}.
Proof.
  intros Hw Hh He Hv Hu. unfold handleWebhookPOST, io.ReadAll. rewrite He.
  unfold defer, mbind, M_bind, log, deref, start, on_writer, panic. simpl.
  rewrite Hw, Hv. simpl. rewrite Hu, Hh. reflexivity.
Qed.
End pipeline.

Lemma signed_conforming_body_reaches_the_handler_example :
  exists request,
    handleWebhookPOST 0
      (NewWebhook "token" "abc" (Some example_handler) ∅).2
      (NewWebhook "token" "abc" (Some example_handler) ∅).1
      (signed_post text_message_body) start
    = Done tt
        {| resp := example_handler 0%nat http.NewRecorder request;
           calls := [CallReadAll; CallVerifySignature text_message_body;
                     CallUnmarshal text_message_body;
                     CallHandleWebhook request; CallClose] |}
    /\ get WebhookMessage "Type" <$> all_messages request
       = [Some (VString "text")].
Proof.
  destruct (json.parse text_message_body) as [j|] eqn:Hp;
    [|vm_compute in Hp; discriminate Hp].
  exists (fst (json.decode WebhookRequest j (zero WebhookRequest))). split.
  - apply (signed_conforming_body_reaches_the_handler
             (NewWebhook "token" "abc" (Some example_handler) ∅).2
             (NewWebhook "token" "abc" (Some example_handler) ∅).1
             _ example_handler (signed_post text_message_body) j 0%nat
             (NewWebhook_lookup "token" "abc" (Some example_handler) ∅)
             eq_refl eq_refl).
    + vm_compute. reflexivity.
    + exact Hp.
    + vm_compute in Hp. injection Hp as <-. vm_compute. reflexivity.
  - vm_compute in Hp. injection Hp as <-. vm_compute. reflexivity.
Defined.

Lemma nil_handler_panics_example :
  handleWebhookPOST 0
    (NewWebhook "token" "abc" None ∅).2 (NewWebhook "token" "abc" None ∅).1
    (signed_post text_message_body) start
  = Panicked
      {| resp := http.NewRecorder;
         calls := [CallReadAll; CallVerifySignature text_message_body;
                   CallUnmarshal text_message_body; CallClose] |}.
Proof.
  destruct (json.Unmarshal WebhookRequest text_message_body (zero WebhookRequest))
    as [request [e|]] eqn:Hu; [vm_compute in Hu; discriminate Hu|].
  apply (nil_handler_panics
           (NewWebhook "token" "abc" None ∅).2 (NewWebhook "token" "abc" None ∅).1
           _ (signed_post text_message_body) request 0%nat
           (NewWebhook_lookup "token" "abc" None ∅) eq_refl eq_refl).
  - vm_compute. reflexivity.
  - exact Hu.
Defined.

(** * The parameters of outbound messages *)

Ltac nonempty :=
  repeat split; try assumption; try discriminate; simpl;
  repeat match goal with
         | H : ?s <> "" |- context [String.eqb ?s ""] =>
             rewrite (proj2 (String.eqb_neq s "") H)
         end;
  try reflexivity.

(** [NewFlowParameters] returns the parameters and a nil error when the
    five strings it is given are all non-empty, and nil and an error as soon
    as one is empty; the parameters it returns carry the strings as given,
    no flow mode and no payload, and pass [Validate]. *)
Theorem NewFlowParameters_returns v tk id cta act :
  match NewFlowParameters v tk id cta act with
  | (Some p, None) =>
      (v <> "" /\ tk <> "" /\ id <> "" /\ cta <> "" /\ act <> "")
      /\ p = {| FlowParameters.FlowMessageVersion := v;
                FlowParameters.FlowMode := "";
                FlowParameters.FlowToken := tk;
                FlowParameters.FlowID := id;
                FlowParameters.FlowCTA := cta;
                FlowParameters.FlowAction := act;
                FlowParameters.FlowActionPayload := None |}
      /\ FlowParameters.Validate (Some p) = None
  | (None, Some _) => v = "" \/ tk = "" \/ id = "" \/ cta = "" \/ act = ""
  | _ => False
  end.
Proof.
  unfold NewFlowParameters, FlowParameters.Validate. simpl.
  destruct (String.eqb_spec v ""); [auto|].
  destruct (String.eqb_spec tk ""); [auto|].
  destruct (String.eqb_spec id ""); [auto|].
  destruct (String.eqb_spec cta ""); [auto|].
  destruct (String.eqb_spec act ""); [auto 6|].
  nonempty.
Qed.

(** [NewCTAURLParameters] returns the parameters and a nil error when the
    display text and the URL are both non-empty, and nil and an error
    otherwise; the URL is not looked at beyond that. *)
Theorem NewCTAURLParameters_returns displayText url :
  match NewCTAURLParameters displayText url with
  | (Some p, None) =>
      (displayText <> "" /\ url <> "")
      /\ p = {| CTAURLParameters.DisplayText := displayText;
                CTAURLParameters.URL := url |}
      /\ CTAURLParameters.Validate (Some p) = None
  | (None, Some _) => displayText = "" \/ url = ""
  | _ => False
  end.
Proof.
  unfold NewCTAURLParameters, CTAURLParameters.Validate. simpl.
  destruct (String.eqb_spec displayText ""); [auto|].
  destruct (String.eqb_spec url ""); [auto|].
  nonempty.
Qed.

(** [SendImageParams.Validate] accepts the parameters exactly when one of
    [ID] and [Link], and only one, is given and the caption has at most 1024
    bytes. *)
Theorem SendImageParams_Validate_accepts sip :
  SendImageParams.Validate (Some sip) = None
  <-> ((SendImageParams.ID sip <> "" /\ SendImageParams.Link sip = "")
       \/ (SendImageParams.ID sip = "" /\ SendImageParams.Link sip <> ""))
      /\ (String.length (SendImageParams.Caption sip) <= 1024)%nat.
Proof.
  unfold SendImageParams.Validate.
  destruct (String.eqb_spec (SendImageParams.ID sip) "") as [E|N];
    destruct (String.eqb_spec (SendImageParams.Link sip) "") as [E'|N']; simpl.
  - split; [discriminate|]. intros [[[H _]|[_ H]] _]; contradiction.
  - destruct (Nat.ltb_spec 1024 (String.length (SendImageParams.Caption sip))).
    + split; [discriminate|]. intros [_ H']. lia.
    + split; [|reflexivity]. intros _. split; [right; split; assumption|lia].
  - destruct (Nat.ltb_spec 1024 (String.length (SendImageParams.Caption sip))).
    + split; [discriminate|]. intros [_ H']. lia.
    + split; [|reflexivity]. intros _. split; [left; split; assumption|lia].
  - split; [discriminate|]. intros [[[_ H]|[H _]] _]; contradiction.
Qed.

(** [NewSendImageParamsWithID] and [NewSendImageParamsWithLink] return the
    parameters when the identifier (the link) is non-empty and the first
    caption given, if any, has at most 1024 bytes, and nil and an error
    otherwise; the captions after the first are dropped. *)
Theorem NewSendImageParams_returns s caption :
  match NewSendImageParamsWithID s caption with
  | (Some p, None) =>
      s <> "" /\ (String.length (hd "" caption) <= 1024)%nat
      /\ p = {| SendImageParams.ID := s; SendImageParams.Link := "";
                SendImageParams.Caption := hd "" caption |}
  | (None, Some _) => s = "" \/ (1024 < String.length (hd "" caption))%nat
  | _ => False
  end
  /\ match NewSendImageParamsWithLink s caption with
     | (Some p, None) =>
         s <> "" /\ (String.length (hd "" caption) <= 1024)%nat
         /\ p = {| SendImageParams.ID := ""; SendImageParams.Link := s;
                   SendImageParams.Caption := hd "" caption |}
     | (None, Some _) => s = "" \/ (1024 < String.length (hd "" caption))%nat
     | _ => False
     end.
Proof.
  unfold NewSendImageParamsWithID, NewSendImageParamsWithLink,
    SendImageParams.Validate. simpl.
  change (match caption with c :: _ => c | [] => "" end) with (hd "" caption).
  destruct (String.eqb_spec s "") as [E|N]; simpl; [auto|].
  destruct (Nat.ltb_spec 1024 (String.length (hd "" caption))); simpl.
  - auto.
  - split; repeat split; assumption.
Qed.

(** [NewUploadMediaParams] returns the parameters, with "whatsapp" as
    their messaging product, when the reader is not nil and the file name
    and the MIME type are non-empty, and nil and an error otherwise: the
    MIME type is not checked against the supported ones. *)
Theorem NewUploadMediaParams_returns file filename mimeType :
  match NewUploadMediaParams file filename mimeType with
  | (Some p, None) =>
      (file <> None /\ filename <> "" /\ mimeType <> "")
      /\ p = {| UploadMediaParams.File := file;
                UploadMediaParams.Filename := filename;
                UploadMediaParams.MimeType := mimeType;
                UploadMediaParams.MessagingProduct := "whatsapp" |}
      /\ UploadMediaParams.Validate (Some p) = None
  | (None, Some _) => file = None \/ filename = "" \/ mimeType = ""
  | _ => False
  end.
Proof.
  unfold NewUploadMediaParams, UploadMediaParams.Validate. simpl.
  destruct file as [f|]; [|auto].
  destruct (String.eqb_spec filename ""); [auto|].
  destruct (String.eqb_spec mimeType ""); [auto|]. simpl.
  nonempty.
Qed.

(** [NewSendInteractiveParams] returns the parameters, with no header and
    no footer, when the body and the action are both not nil, and nil and an
    error otherwise; it does not validate the action. *)
Theorem NewSendInteractiveParams_returns body action :
  match NewSendInteractiveParams body action with
  | (Some p, None) =>
      (body <> None /\ action <> None)
      /\ p = {| SendInteractiveParams.Header := None;
                SendInteractiveParams.Body := body;
                SendInteractiveParams.Footer := None;
                SendInteractiveParams.Action := action |}
  | (None, Some _) => body = None \/ action = None
  | _ => False
  end.
Proof.
  unfold NewSendInteractiveParams, SendInteractiveParams.Validate. simpl.
  destruct body; [|auto]. destruct action; [|auto].
  repeat split; discriminate.
Qed.

(** [ValidateAction] accepts an action exactly when it has no parameters,
    or its name is empty or the action type of its parameters and the
    parameters pass their own [Validate]. A name that is neither is
    reported before the parameters are validated, and an error of the
    parameters is returned wrapped. A nil pointer to flow or to URL
    parameters inside the interface counts as parameters, and is rejected by
    their [Validate]. *)
Theorem ValidateAction_accepts action :
  (ValidateAction (Some action) = None
   <-> Action.Parameters action = Parameters_nil
       \/ ((Action.Name action = ""
            \/ Action.Name action = ActionType (Action.Parameters action))
           /\ Validate (Action.Parameters action) = None))
  /\ (Action.Parameters action <> Parameters_nil ->
      Action.Name action <> "" ->
      Action.Name action <> ActionType (Action.Parameters action) ->
      ValidateAction (Some action)
      = Some (Errorf ("action name '" +:+ Action.Name action
                      +:+ "' does not match parameter type '"
                      +:+ ActionType (Action.Parameters action) +:+ "'")))
  /\ (forall err,
        Action.Parameters action <> Parameters_nil ->
        Action.Name action = ""
        \/ Action.Name action = ActionType (Action.Parameters action) ->
        Validate (Action.Parameters action) = Some err ->
        ValidateAction (Some action)
        = Some (fmt.Errorf_w "parameter validation failed" err))
  /\ (Action.Parameters action = Parameters_Flow None
      \/ Action.Parameters action = Parameters_CTAURL None ->
      ValidateAction (Some action) <> None).
Proof.
  assert (Action.Parameters action <> Parameters_nil ->
          ValidateAction (Some action)
          = if negb (String.eqb (Action.Name action) "")
               && negb (String.eqb (Action.Name action)
                          (ActionType (Action.Parameters action)))
            then Some (Errorf ("action name '" +:+ Action.Name action
                               +:+ "' does not match parameter type '"
                               +:+ ActionType (Action.Parameters action)
                               +:+ "'"))
            else match Validate (Action.Parameters action) with
                 | Some err => Some (fmt.Errorf_w "parameter validation failed" err)
                 | None => None
                 end) as Hsome.
  { unfold ValidateAction. destruct (Action.Parameters action); try reflexivity.
    intros H. contradiction. }
  assert (Action.Parameters action = Parameters_nil ->
          ValidateAction (Some action) = None) as Hnil.
  { unfold ValidateAction. intros ->. reflexivity. }
  assert (Action.Parameters action = Parameters_nil
          \/ Action.Parameters action <> Parameters_nil) as [Hp|Hp]
    by (destruct (Action.Parameters action); auto; right; discriminate).
  { rewrite (Hnil Hp). repeat split; auto; try contradiction.
    intros [E|E]; rewrite Hp in E; discriminate E. }
  rewrite (Hsome Hp). clear Hsome Hnil.
  assert (Action.Parameters action = Parameters_Flow None
          \/ Action.Parameters action = Parameters_CTAURL None ->
          Validate (Action.Parameters action) <> None) as Hnone
    by (intros [E|E]; rewrite E; discriminate).
  destruct (String.eqb_spec (Action.Name action) "") as [E|N];
    destruct (String.eqb_spec (Action.Name action)
                (ActionType (Action.Parameters action))) as [E'|N'];
    destruct (Validate (Action.Parameters action)) as [err|]; simpl;
    repeat split; intros; try discriminate; try contradiction; try congruence;
    try tauto;
    try (exfalso; apply Hnone; [assumption|reflexivity]);
    try match goal with
        | H : _ \/ _ /\ Some _ = None |- _ =>
            destruct H as [H|[_ H]]; [contradiction|discriminate H]
        end.
Qed.

(** * Media limits *)

(** A MIME type is supported, by [ValidateMimeType], exactly when
    [ValidateMediaSize] accepts some size for it; the sizes it accepts are
    positive and at most 100 MB, the largest of the limits; and a size that
    is not positive is reported, as such, before the type is looked at. *)
Theorem ValidateMediaSize_and_ValidateMimeType mimeType :
  (ValidateMimeType mimeType = None
   <-> exists size, ValidateMediaSize mimeType size = None)
  /\ (forall size,
        ValidateMediaSize mimeType size = None -> 0 < size <= MaxDocumentSize)
  /\ (forall size,
        size <= 0 ->
        ValidateMediaSize mimeType size
        = Some (Errorf ("invalid media size: " +:+ itoa size))).
Proof.
  split; [split|split].
  - intros H. exists 1. revert H.
    unfold ValidateMimeType, ValidateMediaSize, supportedTypes.
    change (1 <=? 0) with false. cbv iota.
    repeat (match goal with
            | |- context [String.eqb mimeType ?c] =>
                destruct (String.eqb mimeType c) eqn:?; cbn [orb]; cbv iota;
                try (intros _; reflexivity)
            end).
    intros H. discriminate H.
  - intros [size H]. revert H.
    unfold ValidateMimeType, ValidateMediaSize, supportedTypes.
    destruct (size <=? 0); [discriminate|].
    repeat (match goal with
            | |- context [String.eqb mimeType ?c] =>
                destruct (String.eqb mimeType c) eqn:?; cbn [orb]; cbv iota;
                try (intros _; reflexivity)
            end).
    intros H. discriminate H.
  - intros size. unfold ValidateMediaSize.
    destruct (Z.leb_spec size 0); [discriminate|].
    unfold MaxImageSize, MaxAudioSize, MaxVideoSize, MaxDocumentSize,
      MaxStickerSize.
    repeat (match goal with
            | |- context [if ?b || _ then _ else _] => destruct b; cbn [orb]
            | |- context [if String.eqb ?a ?b then _ else _] =>
                destruct (String.eqb a b)
            | |- context [if ?a <? size then _ else _] =>
                destruct (Z.ltb_spec a size)
            end; try discriminate; try (intros _; lia)).
  - intros size Hs. unfold ValidateMediaSize.
    destruct (Z.leb_spec size 0); [reflexivity|lia].
Qed.

(** The limit of stickers is never applied: "image/webp", the one
    sticker type, is an image type too, and the case of images comes first,
    so a file of that type is accepted exactly up to the 5 MB of images,
    also beyond the 100 KB of stickers. *)
Theorem sticker_limit_is_never_applied size :
  MimeTypeStickerWebP = MimeTypeImageWebP
  /\ MaxStickerSize < MaxImageSize
  /\ (ValidateMediaSize MimeTypeStickerWebP size = None
      <-> 0 < size <= MaxImageSize).
Proof.
  split; [reflexivity|]. split; [reflexivity|].
  unfold ValidateMediaSize.
  change (String.eqb MimeTypeStickerWebP MimeTypeImageJPEG) with false.
  change (String.eqb MimeTypeStickerWebP MimeTypeImagePNG) with false.
  change (String.eqb MimeTypeStickerWebP MimeTypeImageWebP) with true.
  cbn [orb]. cbv iota.
  destruct (Z.leb_spec size 0).
  - split; [discriminate|lia].
  - destruct (Z.ltb_spec MaxImageSize size).
    + split; [discriminate|lia].
    + split; [lia|reflexivity].
Qed.

(** * Links *)







(** * The media of a received message *)

Lemma decode_pointer elem ms v :
  has_type (TPtr elem) v ->
  exists old,
    has_type elem old
    /\ fst (json.decode (TPtr elem) (json.Object ms) v)
       = VPtr (Some (fst (json.decode elem (json.Object ms) old))).
Proof.
  intros Hv.
  exists (match v with VPtr (Some x) => x | _ => zero elem end). split.
  - destruct v as [| | | |[x|]| |]; try apply has_type_zero. exact Hv.
  - simpl. destruct (json.decode elem (json.Object ms) _). reflexivity.
Qed.

(** [ExtractMediaID] on a decoded message gives the identifier the message
    was sent with: when the object of a message has one of the five media
    types as its type, and for the field of that type an object with a
    string as its [id], that string is what [ExtractMediaID] returns for the
    message decoded from the object. *)
Theorem ExtractMediaID_of_decoded ty slot m media id :
  (ty, slot) ∈ media_slots ->
  sent WebhookMessage "Type" m = Some (json.String_ ty) ->
  sent WebhookMessage slot m = Some media ->
  sent WebhookMessageMedia "ID" media = Some (json.String_ id) ->
  ExtractMediaID
    (Some (fst (json.decode WebhookMessage m (zero WebhookMessage)))) = id.
Proof.
  intros Hin Hty Hslot Hid.
  destruct (sent_field_decoded_in WebhookMessage "Type" "type" MessageType
              3%nat m (json.String_ ty) (zero WebhookMessage) eq_refl eq_refl
              (has_type_zero WebhookMessage) Hty) as (o1 & _ & G1).
  change (fst (json.decode MessageType (json.String_ ty) o1))
    with (VString ty) in G1.
  destruct media as [| | | | |ms]; try discriminate Hid.
  assert (exists i key,
             field_index slot (struct_fields WebhookMessage) = Some i
             /\ struct_fields WebhookMessage !! i
                = Some (slot, key, TPtr WebhookMessageMedia)) as (i & key & Hi & Hf).
  { unfold media_slots in Hin.
    repeat (apply elem_of_cons in Hin as [[= _ ->]|Hin];
            [eexists _, _; split; reflexivity|]).
    apply elem_of_nil in Hin. contradiction. }
  destruct (sent_field_decoded_in WebhookMessage slot key
              (TPtr WebhookMessageMedia) i m (json.Object ms)
              (zero WebhookMessage) Hi Hf (has_type_zero WebhookMessage) Hslot)
    as (o2 & T2 & G2).
  destruct (decode_pointer WebhookMessageMedia ms o2 T2) as (o3 & T3 & E3).
  rewrite E3 in G2.
  destruct (sent_field_decoded_in WebhookMessageMedia "ID" "id"
              (TString "string") 2%nat (json.Object ms) (json.String_ id) o3
              eq_refl eq_refl T3 Hid) as (o4 & _ & G4).
  change (fst (json.decode (TString "string") (json.String_ id) o4))
    with (VString id) in G4.
  unfold ExtractMediaID. rewrite G1.
  unfold media_slots in Hin.
  repeat (apply elem_of_cons in Hin as [[= -> ->]|Hin];
          [cbv beta iota zeta delta
             [String.eqb Ascii.eqb Bool.eqb MessageTypeImage MessageTypeAudio
              MessageTypeVideo MessageTypeDocument MessageTypeSticker];
           unfold media_id; rewrite G2, G4; reflexivity|]).
  apply elem_of_nil in Hin. contradiction.
Qed.

Lemma ExtractMediaID_of_decoded_example :
  ExtractMediaID
    (Some (fst (json.decode WebhookMessage image_message (zero WebhookMessage))))
  = "media-1".
Proof.
  apply (ExtractMediaID_of_decoded "image" "Image" image_message
           (json.Object [("mime_type", json.String_ "image/jpeg");
                         ("id", json.String_ "media-1")]) "media-1").
  - apply list_elem_of_here.
  - vm_compute. reflexivity.
  - vm_compute. reflexivity.
  - vm_compute. reflexivity.
Defined.
